(** * load_docs.py: chunk identifiers and the ingestion driver

    A shallow embedding of [src/load_docs.py].  The script loads the
    pages of each PDF of a directory, splits them into chunks, gives
    every chunk an identifier [source:page:index] and adds to the
    Chroma store the chunks whose identifier the store does not hold.

    The loader, the splitter, the embedding function, [pathlib] and
    the Chroma client are libraries.  What the loader, the splitter and
    the paths answer is given by a record of functions ([Env]); the
    persisted store is a finite map from identifiers to documents that
    lives in the store directory and is empty when the directory is
    absent.  Of the client two refusals are modelled, since the script
    runs into them: a batch with a repeated id is not stored, and the
    class has no [persist].  Failures of the connection and of the
    embedding function are not part of the model. *)

From Stdlib Require Import ZArith Lia Ascii String DecimalString DecimalZ DecimalPos.
From stdpp Require Import gmap strings list fin_maps.

Open Scope string_scope.
Open Scope list_scope.
Open Scope Z_scope.

(** ** Python values held in a chunk's metadata *)

(** The metadata of a LangChain [Document] is a [dict] from strings to
    values.  The script reads the keys ["source"] and ["page"] and
    writes the key ["id"]; the loader stores a path string under the
    first and an integer under the second.  [PyNone] is what
    [dict.get] returns for a key that is absent.  Values of other
    types do not occur in what the loader produces and are left out. *)
Inductive pyval : Type :=
  | PyNone
  | PyStr (s : string)
  | PyInt (z : Z).

Global Instance pyval_eq_dec : EqDecision pyval.
Proof. solve_decision. Defined.

(** [str(z)] for an integer: decimal digits, a leading [-] when negative. *)
Definition str_int (z : Z) : string :=
  NilZero.string_of_int (Z.to_int z).

(** [format(v, "")], which is what an f-string replacement field
    [{v}] evaluates to. *)
Definition py_str (v : pyval) : string :=
  match v with
  | PyNone => "None"
  | PyStr s => s
  | PyInt z => str_int z
  end.

(** ** Documents *)

Record Document : Type := mkDocument {
  page_content : string;
  metadata : gmap string pyval
}.

(** [d.get(k)]: the value under [k], [None] when [k] is absent. *)
Definition dict_get (d : gmap string pyval) (k : string) : pyval :=
  default PyNone (d !! k).

(** [chunk.metadata[k] = v].  Each element of the list of chunks is an
    object of its own (the splitter builds one [Document] per chunk),
    so the update in place of the object is the update of the element. *)
Definition set_metadata (chunk : Document) (k : string) (v : pyval) : Document :=
  {| page_content := page_content chunk;
     metadata := <[k := v]> (metadata chunk) |}.

(** ** [calculate_chunk_ids] *)

(** The body of the [for] loop with the two locals [last_page_id]
    (an optional string, [None] before the first chunk) and
    [chunk_index] passed along. *)
Fixpoint calculate_chunk_ids_loop
    (last_page_id : option string) (chunk_index : Z)
    (chunks : list Document) : list Document :=
  match chunks with
  | [] => []
  | chunk :: rest =>
      let source := dict_get (metadata chunk) "source" in
      let page := dict_get (metadata chunk) "page" in
      let page_id := py_str source +:+ ":" +:+ py_str page in
      let chunk_index :=
        if decide (Some page_id = last_page_id)
        then chunk_index + 1
        else 0 in
      set_metadata chunk "id"
        (PyStr (page_id +:+ ":" +:+ str_int chunk_index))
      :: calculate_chunk_ids_loop (Some page_id) chunk_index rest
  end.

Definition calculate_chunk_ids (chunks : list Document) : list Document :=
  calculate_chunk_ids_loop None 0 chunks.

(** The identifier string of a chunk's page, as the loop computes it. *)
Definition page_id_of (chunk : Document) : string :=
  py_str (dict_get (metadata chunk) "source") +:+ ":" +:+
  py_str (dict_get (metadata chunk) "page").

(** ** The same loop on objects

    In Python the list holds references and the loop updates the
    objects they designate.  Here the objects live in a store and the
    list holds their addresses; a reference always designates an
    object, so the last branch is never taken. *)
Fixpoint calculate_chunk_ids_in_place
    (last_page_id : option string) (chunk_index : Z)
    (chunks : list positive) (objects : gmap positive Document)
    : gmap positive Document :=
  match chunks with
  | [] => objects
  | r :: rest =>
      match objects !! r with
      | Some chunk =>
          let source := dict_get (metadata chunk) "source" in
          let page := dict_get (metadata chunk) "page" in
          let page_id := py_str source +:+ ":" +:+ py_str page in
          let chunk_index :=
            if decide (Some page_id = last_page_id)
            then chunk_index + 1
            else 0 in
          calculate_chunk_ids_in_place (Some page_id) chunk_index rest
            (<[r := set_metadata chunk "id"
                      (PyStr (page_id +:+ ":" +:+ str_int chunk_index))]>
               objects)
      | None => objects
      end
  end.

(** The pair of values the loop reads from a chunk. *)
Definition source_page (chunk : Document) : pyval * pyval :=
  (dict_get (metadata chunk) "source", dict_get (metadata chunk) "page").

(** [chunk.metadata["id"]] as stored: [None] while the key is absent. *)
Definition read_id (chunk : Document) : option pyval :=
  metadata chunk !! "id".

(** ** The algorithm in the words of the specification *)

(** A cursor (unset at first), a counter (0 at first) and the chunks
    done so far; one step per chunk, from left to right. *)
Record assigner : Type := mkAssigner {
  cursor : option string;
  counter : Z;
  done_chunks : list Document
}.

Definition assigner_init : assigner :=
  {| cursor := None; counter := 0; done_chunks := [] |}.

Definition assigner_step (st : assigner) (chunk : Document) : assigner :=
  let page_id := page_id_of chunk in
  let counter' :=
    if decide (cursor st = Some page_id) then counter st + 1 else 0 in
  {| cursor := Some page_id;
     counter := counter';
     done_chunks := done_chunks st ++
       [set_metadata chunk "id" (PyStr (page_id +:+ ":" +:+ str_int counter'))] |}.

Definition assign_by_fold (chunks : list Document) : list Document :=
  done_chunks (fold_left assigner_step chunks assigner_init).

(** ** Counters over the sequence of page identifiers *)

(** The value of [chunk_index] at each chunk, as a function of the
    page identifiers alone. *)
Fixpoint indices {K : Type} `{EqDecision K}
    (last : option K) (n : Z) (keys : list K) : list Z :=
  match keys with
  | [] => []
  | k :: rest =>
      let n' := if decide (Some k = last) then n + 1 else 0 in
      n' :: indices (Some k) n' rest
  end.

(** Chunks of one group stand next to each other: a key that occurs
    again later occurs at the very next position. *)
Fixpoint grouped {K : Type} `{EqDecision K} (keys : list K) : bool :=
  match keys with
  | [] => true
  | k :: rest =>
      (bool_decide (k ∉ rest) || bool_decide (head rest = Some k))
      && grouped rest
  end.

(** The same, by positions: between two occurrences of a key there is
    nothing but that key. *)
Definition contiguous {K : Type} (keys : list K) : Prop :=
  ∀ (i m j : nat) (k : K),
    (i < m < j)%nat → keys !! i = Some k → keys !! j = Some k →
    keys !! m = Some k.

(** The loader's metadata: a string under ["source"], an integer
    under ["page"]. *)
Definition loader_metadata (chunk : Document) : bool :=
  match source_page chunk with
  | (PyStr _, PyInt _) => true
  | _ => false
  end.

(** Occurrence of a character in a string. *)
Fixpoint has_char (c : Ascii.ascii) (s : string) : bool :=
  match s with
  | EmptyString => false
  | String a s' => bool_decide (a = c) || has_char c s'
  end.

Definition id_string (page_id : string) (n : Z) : string :=
  page_id +:+ ":" +:+ str_int n.

Definition tag (chunk : Document) (n : Z) : Document :=
  set_metadata chunk "id" (PyStr (id_string (page_id_of chunk) n)).

(** ** The world of the driver *)

Global Instance pyval_countable : Countable pyval.
Proof.
  refine (inj_countable'
    (λ v, match v with
          | PyNone => inl tt
          | PyStr s => inr (inl s)
          | PyInt z => inr (inr z)
          end)
    (λ x, match x with
          | inl _ => PyNone
          | inr (inl s) => PyStr s
          | inr (inr z) => PyInt z
          end) _).
  by intros [].
Defined.

(** What the script changes and shows:
    - [chroma_dir], the directory [CHROMA_DIR]: [None] while it does
      not exist, otherwise the collection persisted in it, a map from
      identifiers to the documents stored under them;
    - [console], the lines printed so far;
    - [connections], how many times the client [Chroma(...)] was built. *)
Record World : Type := mkWorld {
  chroma_dir : option (gmap pyval Document);
  console : list string;
  connections : nat
}.

(** A call returns or raises; what it did to the world stays done. *)
Inductive outcome (A : Type) : Type :=
  | Returned (a : A)
  | Raised (e : string).
Arguments Returned {A} a.
Arguments Raised {A} e.

Definition M (A : Type) : Type := World → outcome A * World.

Definition ret {A : Type} (a : A) : M A := λ w, (Returned a, w).

Definition raise {A : Type} (e : string) : M A := λ w, (Raised e, w).

Definition bind {A B : Type} (m : M A) (k : A → M B) : M B :=
  λ w, match m w with
       | (Returned a, w') => k a w'
       | (Raised e, w') => (Raised e, w')
       end.

Notation "'let*' x ':=' m 'in' k" := (bind m (λ x, k))
  (at level 10, x name, m at level 100, k at level 200,
   format "'[v' 'let*'  x  ':='  m  'in' '/' k ']'").
Notation "m '>>' k" := (bind m (λ _, k))
  (at level 100, k at level 200, right associativity).

(** The result of a library call that may fail. *)
Definition lift {A : Type} (o : outcome A) : M A := λ w, (o, w).

(** [for x in xs: body(x)] *)
Fixpoint for_each {A : Type} (xs : list A) (body : A → M unit) : M unit :=
  match xs with
  | [] => ret tt
  | x :: rest => body x >> for_each rest body
  end.

Definition print (line : string) : M unit :=
  λ w, (Returned tt,
        {| chroma_dir := chroma_dir w;
           console := console w ++ [line];
           connections := connections w |}).

(** [CHROMA_DIR.exists()] *)
Definition chroma_dir_exists : M bool :=
  λ w, (Returned (bool_decide (is_Some (chroma_dir w))), w).

(** [shutil.rmtree(CHROMA_DIR)] *)
Definition rmtree_chroma_dir : M unit :=
  λ w, (Returned tt,
        {| chroma_dir := None;
           console := console w;
           connections := connections w |}).

(** [CHROMA_DIR.mkdir(exist_ok=True)]: an absent directory is created
    empty, a present one is kept. *)
Definition mkdir_chroma_dir : M unit :=
  λ w, (Returned tt,
        {| chroma_dir := Some (default ∅ (chroma_dir w));
           console := console w;
           connections := connections w |}).

(** [Chroma(persist_directory=..., embedding_function=...)]: the client
    is a handle on the collection persisted in [CHROMA_DIR]. *)
Definition Chroma : M unit :=
  λ w, (Returned tt,
        {| chroma_dir := chroma_dir w;
           console := console w;
           connections := S (connections w) |}).

(** [db.get(include=[])["ids"]]: the identifiers in the collection;
    none when nothing is persisted. *)
Definition db_get_ids : M (list pyval) :=
  λ w, (Returned (map fst (map_to_list (default ∅ (chroma_dir w)))), w).

(** [db.add_documents(docs, ids=ids)]: the client refuses a batch in
    which an id comes twice ([DuplicateIDError]) and stores nothing of
    it; otherwise each document is stored under its identifier, and
    stays stored whatever comes after. *)
Definition add_documents (docs : list Document) (ids : list pyval) : M unit :=
  λ w, if decide (NoDup ids)
       then (Returned tt,
             {| chroma_dir :=
                  Some (fold_left (λ st p, <[p.1 := p.2]> st) (zip ids docs)
                          (default ∅ (chroma_dir w)));
                console := console w;
                connections := connections w |})
       else (Raised "DuplicateIDError", w).

(** [db.persist()]: the class [Chroma] of [langchain_chroma], which
    the script imports, has no method [persist]; looking the attribute
    up raises [AttributeError]. *)
Definition persist : M unit := raise "AttributeError".

(** [d[k]]: raises [KeyError] when [k] is absent. *)
Definition dict_item (d : gmap string pyval) (k : string) : M pyval :=
  match d !! k with
  | Some v => ret v
  | None => raise "KeyError"
  end.

(** [[c for c in cs if c.metadata["id"] not in existing]] *)
Fixpoint not_in_existing (cs : list Document) (existing : gset pyval)
    : M (list Document) :=
  match cs with
  | [] => ret []
  | c :: rest =>
      let* i := dict_item (metadata c) "id" in
      let* keep := not_in_existing rest existing in
      ret (if decide (i ∉ existing) then c :: keep else keep)
  end.

(** [[c.metadata["id"] for c in cs]] *)
Fixpoint ids_of (cs : list Document) : M (list pyval) :=
  match cs with
  | [] => ret []
  | c :: rest =>
      let* i := dict_item (metadata c) "id" in
      let* others := ids_of rest in
      ret (i :: others)
  end.

(** ** [clear_database] and [add_to_db] *)

Definition clear_database : M unit :=
  let* there := chroma_dir_exists in
  if there then rmtree_chroma_dir else ret tt.

Definition add_to_db (chunks : list Document) : M unit :=
  let* db := Chroma in
  let* _ := mkdir_chroma_dir in
  let* items := db_get_ids in
  let existing : gset pyval := list_to_set items in
  let* new_chunks := not_in_existing (calculate_chunk_ids chunks) existing in
  match new_chunks with
  | _ :: _ =>
      let* _ := print ("👉 Adding " +:+
                       str_int (Z.of_nat (length new_chunks)) +:+
                       " new chunks") in
      let* ids := ids_of new_chunks in
      let* _ := add_documents new_chunks ids in
      persist
  | [] => print "✅ All documents already in DB"
  end.

(** ** [main] *)

(** The parsed command line. *)
Record Args : Type := mkArgs {
  reset : bool;
  dir : string
}.

(** The data tree and the libraries that read it.  The data tree lies
    apart from the store directory: deleting the latter changes none
    of the answers below.
    - [data_path d] is [DATA_DIR / d], as a string;
    - [is_dir p] is [p.is_dir()];
    - [glob_pdf p] is [sorted(p.glob("*.pdf"))];
    - [path_name p] is [p.name];
    - [load_documents] and [split_documents] are the PDF loader and
      the text splitter, which return or raise. *)
Record Env : Type := mkEnv {
  data_path : string → string;
  is_dir : string → bool;
  glob_pdf : string → list string;
  path_name : string → string;
  load_documents : string → outcome (list Document);
  split_documents : list Document → outcome (list Document)
}.

Definition newline : string := String (ascii_of_nat 10) EmptyString.

(** The body of the loop over the files. *)
Definition ingest (env : Env) (pdf_path : string) : M unit :=
  let* _ := print (newline +:+ "📄 Ingesting " +:+
                   path_name env pdf_path) in
  let* docs := lift (load_documents env pdf_path) in
  let* chunks := lift (split_documents env docs) in
  add_to_db chunks.

Definition main (env : Env) (args : Args) : M unit :=
  let* _ :=
    if reset args
    then (let* _ := print "✨ Clearing existing database…" in clear_database)
    else ret tt in
  let pdf_dir := data_path env (dir args) in
  if negb (is_dir env pdf_dir) then
    print ("❌ Directory not found: " +:+ pdf_dir)
  else
    let pdf_files := glob_pdf env pdf_dir in
    match pdf_files with
    | [] => print ("❌ No PDF files found in: " +:+ pdf_dir)
    | _ :: _ =>
        let* _ := print ("📂 Found " +:+
                         str_int (Z.of_nat (length pdf_files)) +:+
                         " PDF(s) in " +:+ pdf_dir +:+ ":") in
        let* _ := for_each pdf_files
                    (λ p, print ("  • " +:+ path_name env p)) in
        for_each pdf_files (ingest env)
    end.

(** ** Vocabulary of the statements *)

(** What an f-string shows for the field [key] of a chunk: the text of
    the value, [None] when the key is absent. *)
Definition field_text (chunk : Document) (key : string) : string :=
  match metadata chunk !! key with
  | Some v => py_str v
  | None => "None"
  end.

(** A chunk with neither ["source"] nor ["page"]. *)
Definition lacks_both (chunk : Document) : bool :=
  bool_decide (metadata chunk !! "source" = None)
  && bool_decide (metadata chunk !! "page" = None).

(** The test of the comprehension of [add_to_db] on a chunk that has
    an id. *)
Definition is_new (existing : gset pyval) (chunk : Document) : bool :=
  match read_id chunk with
  | Some i => bool_decide (i ∉ existing)
  | None => false
  end.

(** [c'] is [c] with an ["id"] set and nothing else touched. *)
Definition same_but_id (c c' : Document) : Prop :=
  page_content c' = page_content c
  ∧ delete "id" (metadata c') = delete "id" (metadata c)
  ∧ is_Some (metadata c' !! "id").

(** ** Sample inputs *)

(** A chunk as the loader and the splitter deliver it. *)
Definition pdf_chunk (source : string) (page : Z) (text : string) : Document :=
  {| page_content := text;
     metadata := {[ "source" := PyStr source; "page" := PyInt page ]} |}.

(** A chunk without metadata. *)
Definition bare_chunk (text : string) : Document :=
  {| page_content := text; metadata := ∅ |}.

(** Two pages of one file, in reading order. *)
Definition sample_grouped : list Document :=
  [ pdf_chunk "a.pdf" 0 "t0"; pdf_chunk "a.pdf" 0 "t1";
    pdf_chunk "a.pdf" 1 "t2" ].

(** The same pages with other texts and an id from elsewhere. *)
Definition sample_grouped_edited : list Document :=
  [ pdf_chunk "a.pdf" 0 "new text";
    set_metadata (pdf_chunk "a.pdf" 0 "t1") "id" (PyStr "old");
    pdf_chunk "a.pdf" 1 "t2" ].

(** One page of one file, three chunks. *)
Definition sample_one_page : list Document :=
  [ pdf_chunk "a.pdf" 0 "t0"; pdf_chunk "a.pdf" 0 "t1";
    pdf_chunk "a.pdf" 0 "t2" ].

(** Page 0, page 1, page 0 again. *)
Definition sample_interleaved : list Document :=
  [ pdf_chunk "a.pdf" 0 "t0"; pdf_chunk "a.pdf" 1 "t1";
    pdf_chunk "a.pdf" 0 "t2" ].

(** A chunk with a page and no source. *)
Definition bare_page_chunk (page : Z) (text : string) : Document :=
  {| page_content := text; metadata := {[ "page" := PyInt page ]} |}.

(** A chunk without source, a chunk of file [x], a chunk of a file
    named [None]: three different (source, page) pairs, each group
    contiguous. *)
Definition sample_none_clash : list Document :=
  [ bare_page_chunk 1 "t0"; pdf_chunk "x" 1 "t1"; pdf_chunk "None" 1 "t2" ].

(** A world in which [sample_grouped] has been ingested: the store
    holds its three chunks under their ids. *)
Definition sample_world_ingested : World :=
  {| chroma_dir := Some (list_to_map
       (zip [PyStr "a.pdf:0:0"; PyStr "a.pdf:0:1"; PyStr "a.pdf:1:0"]
            (calculate_chunk_ids sample_grouped)));
     console := [];
     connections := 0 |}.

(** A data tree without the directory asked for, and one in which it
    is there but holds no PDF. *)
Definition env_no_dir : Env :=
  {| data_path := λ d, "data/" +:+ d;
     is_dir := λ _, false;
     glob_pdf := λ _, [];
     path_name := id;
     load_documents := λ _, Returned [];
     split_documents := Returned |}.

Definition env_no_pdf : Env :=
  {| data_path := λ d, "data/" +:+ d;
     is_dir := λ _, true;
     glob_pdf := λ _, [];
     path_name := id;
     load_documents := λ _, Returned [];
     split_documents := Returned |}.

(** Two objects, each listed once. *)
Definition sample_objects : gmap positive Document :=
  {[ 1%positive := pdf_chunk "a.pdf" 0 "t0";
     2%positive := pdf_chunk "a.pdf" 0 "t1" ]}.

(** One object, listed twice. *)
Definition sample_shared : gmap positive Document :=
  {[ 1%positive := pdf_chunk "a.pdf" 0 "t0" ]}.

(** A directory with two files, of which the loader reads the first
    and rejects the second. *)
Definition env_second_fails : Env :=
  {| data_path := λ d, "data/" +:+ d;
     is_dir := λ _, true;
     glob_pdf := λ _, ["a.pdf"; "b.pdf"];
     path_name := id;
     load_documents := λ p,
       if decide (p = "a.pdf") then Returned sample_grouped
       else Raised "PdfReadError";
     split_documents := Returned |}.

(** A directory with two files that the loader reads: the two pages of
    [a.pdf] and one page of [b.pdf]. *)
Definition env_two_files : Env :=
  {| data_path := λ d, "data/" +:+ d;
     is_dir := λ _, true;
     glob_pdf := λ _, ["a.pdf"; "b.pdf"];
     path_name := id;
     load_documents := λ p,
       if decide (p = "a.pdf") then Returned sample_grouped
       else Returned [pdf_chunk "b.pdf" 0 "u0"];
     split_documents := Returned |}.

(** A directory with the one file [a.pdf]. *)
Definition env_one_file : Env :=
  {| data_path := λ d, "data/" +:+ d;
     is_dir := λ _, true;
     glob_pdf := λ _, ["a.pdf"];
     path_name := id;
     load_documents := λ _, Returned sample_grouped;
     split_documents := Returned |}.

(** A world without store directory. *)
Definition sample_world_fresh : World :=
  {| chroma_dir := None; console := []; connections := 0 |}.

(** A chunk of a page followed by chunks without metadata. *)
Definition sample_missing : list Document :=
  [ pdf_chunk "a.pdf" 0 "t0"; bare_chunk "t1"; bare_chunk "t2" ].

(** ** Vocabulary of the driver's statements *)

(** The collection a client sees: empty while the directory is absent. *)
Definition store_of (w : World) : gmap pyval Document :=
  default ∅ (chroma_dir w).

(** The ids [calculate_chunk_ids] gives to a list of chunks, in order. *)
Definition assigned_ids (chunks : list Document) : list pyval :=
  omap read_id (calculate_chunk_ids chunks).

(** The chunks [add_to_db] keeps for insertion. *)
Definition new_chunks_for (existing : gset pyval) (chunks : list Document)
    : list Document :=
  List.filter (is_new existing) (calculate_chunk_ids chunks).

(** The collection after [add_documents] of chunks under their ids. *)
Definition upsert (store : gmap pyval Document) (docs : list Document)
    : gmap pyval Document :=
  fold_left (λ st p, <[p.1 := p.2]> st) (zip (omap read_id docs) docs) store.

(** The line [add_to_db] prints. *)
Definition report_line (new_chunks : list Document) : string :=
  match new_chunks with
  | [] => "✅ All documents already in DB"
  | _ :: _ =>
      "👉 Adding " +:+ str_int (Z.of_nat (length new_chunks)) +:+ " new chunks"
  end.

(** Every document of the collection is stored under the id it carries. *)
Definition keyed_by_id (store : gmap pyval Document) : Prop :=
  ∀ i d, store !! i = Some d → read_id d = Some i.

(** What the loader and the splitter make of a file. *)
Definition chunks_of (env : Env) (pdf_path : string)
    : outcome (list Document) :=
  match load_documents env pdf_path with
  | Returned docs => split_documents env docs
  | Raised e => Raised e
  end.

(** The files [main] goes through: those of the listing when the
    directory is there, none otherwise. *)
Definition pdf_files_of (env : Env) (args : Args) : list string :=
  if is_dir env (data_path env (dir args))
  then glob_pdf env (data_path env (dir args))
  else [].

(** The collection [main] starts the loop over the files with: empty
    after a reset. *)
Definition base_store (args : Args) (w : World) : gmap pyval Document :=
  if reset args then ∅ else store_of w.

(** How [add_to_db] ends, given the chunks it keeps for insertion: it
    returns when there is none; otherwise the client refuses the batch
    when two of them have the same id, and [persist] fails when the
    batch has been stored. *)
Definition add_outcome (new_chunks : list Document) : outcome unit :=
  match new_chunks with
  | [] => Returned tt
  | _ :: _ =>
      if decide (NoDup (omap read_id new_chunks))
      then Raised "AttributeError"
      else Raised "DuplicateIDError"
  end.

(** The collection [add_to_db] leaves. *)
Definition add_store (store : gmap pyval Document)
    (new_chunks : list Document) : gmap pyval Document :=
  if decide (NoDup (omap read_id new_chunks))
  then upsert store new_chunks
  else store.

(** The loader and the splitter accept every file of the list, and the
    store holds the id of every chunk of these files. *)
Definition all_known (env : Env) (store : gmap pyval Document)
    (pdf_files : list string) : Prop :=
  Forall (λ q, ∃ chunks, chunks_of env q = Returned chunks
                 ∧ ∀ i, i ∈ assigned_ids chunks → i ∈ dom store)
    pdf_files.

(** * Properties of the identifier assignment *)

Section Strings.

Lemma has_char_app c s t :
  has_char c (s +:+ t) = has_char c s || has_char c t.
Proof.
  induction s as [|a s IH]; simpl; [done|].
  rewrite IH. by rewrite orb_assoc.
Qed.

Lemma uint_digits_no_colon d :
  has_char ":"%char (NilEmpty.string_of_uint d) = false.
Proof. induction d; simpl; auto. Qed.

Lemma str_int_no_colon z : has_char ":"%char (str_int z) = false.
Proof.
  unfold str_int.
  destruct (Z.to_int z) as [d|d]; simpl;
    destruct d; simpl; auto using uint_digits_no_colon.
Qed.

Lemma str_int_inj a b : str_int a = str_int b → a = b.
Proof.
  unfold str_int. intros H.
  apply DecimalZ.to_int_inj.
  assert (Hn : ∀ z, Z.to_int z ≠ Decimal.Pos Decimal.Nil
                  ∧ Z.to_int z ≠ Decimal.Neg Decimal.Nil).
  { intros [|p|p]; simpl; split; try discriminate;
      intros [= E]; by apply (Unsigned.to_uint_nonnil p). }
  destruct (Hn a) as [Ha1 Ha2], (Hn b) as [Hb1 Hb2].
  pose proof (NilZero.isi _ Ha1 Ha2) as Ea.
  pose proof (NilZero.isi _ Hb1 Hb2) as Eb.
  rewrite H in Ea. congruence.
Qed.

Lemma append_assoc (s t u : string) : (s +:+ t) +:+ u = s +:+ t +:+ u.
Proof.
  induction s as [|a s IH]; [done|].
  change (String a ((s +:+ t) +:+ u) = String a (s +:+ t +:+ u)).
  by rewrite IH.
Qed.

(** A string without [c] is not of the form [s ++ c ++ t]. *)
Lemma has_char_mid c s t : has_char c (s +:+ String c t) = true.
Proof.
  rewrite has_char_app. simpl.
  rewrite bool_decide_true by done. by rewrite orb_true_r.
Qed.

(** Cutting at the last occurrence of a character is unambiguous. *)
Lemma cut_at_last c s1 s2 d1 d2 :
  has_char c d1 = false → has_char c d2 = false →
  s1 +:+ String c d1 = s2 +:+ String c d2 →
  s1 = s2 ∧ d1 = d2.
Proof.
  intros H1 H2. revert s2.
  induction s1 as [|a s1 IH]; intros [|b s2]; simpl; intros E.
  - by injection E.
  - injection E as -> E. rewrite E, has_char_mid in H1. discriminate.
  - injection E as -> E. rewrite <- E, has_char_mid in H2. discriminate.
  - injection E as -> E. destruct (IH _ E) as [-> ->]. done.
Qed.

Lemma id_string_inj p1 n1 p2 n2 :
  id_string p1 n1 = id_string p2 n2 → p1 = p2 ∧ n1 = n2.
Proof.
  unfold id_string. intros E.
  apply cut_at_last in E as [-> E]; auto using str_int_no_colon.
  split; [done|]. by apply str_int_inj.
Qed.

End Strings.

Section Assignment.

Implicit Types (chunks : list Document) (last : option string) (n : Z).

Lemma loop_is_tag last n chunks :
  calculate_chunk_ids_loop last n chunks
  = zip_with tag chunks (indices last n (map page_id_of chunks)).
Proof.
  revert last n. induction chunks as [|c chunks IH]; intros last n; [done|].
  cbn [calculate_chunk_ids_loop map indices zip_with].
  fold (page_id_of c). rewrite IH. done.
Qed.

Lemma length_indices {K} `{EqDecision K} (last : option K) n (keys : list K) :
  length (indices last n keys) = length keys.
Proof.
  revert last n. induction keys as [|k keys IH]; intros last n; simpl; [done|].
  by rewrite IH.
Qed.

Lemma loop_length last n chunks :
  length (calculate_chunk_ids_loop last n chunks) = length chunks.
Proof.
  revert last n. induction chunks as [|c chunks IH]; intros; simpl; [done|].
  by rewrite IH.
Qed.

Lemma read_id_tag c n :
  read_id (tag c n) = Some (PyStr (id_string (page_id_of c) n)).
Proof. unfold read_id, tag, set_metadata. simpl. apply lookup_insert_eq. Qed.

Lemma read_ids_loop last n chunks :
  map read_id (calculate_chunk_ids_loop last n chunks)
  = zip_with (λ k m, Some (PyStr (id_string k m)))
      (map page_id_of chunks) (indices last n (map page_id_of chunks)).
Proof.
  rewrite loop_is_tag. generalize (indices last n (map page_id_of chunks)).
  induction chunks as [|c chunks IH]; intros [|m ms]; simpl; try done.
  by rewrite read_id_tag, IH.
Qed.

(** The fold of the specification, started in any state. *)
Lemma fold_from_state st chunks :
  done_chunks (fold_left assigner_step chunks st)
  = done_chunks st ++ calculate_chunk_ids_loop (cursor st) (counter st) chunks.
Proof.
  revert st. induction chunks as [|c chunks IH]; intros st; simpl.
  - by rewrite app_nil_r.
  - rewrite IH. cbn [assigner_step cursor counter done_chunks].
    fold (page_id_of c). rewrite <- app_assoc. cbn [app].
    destruct (decide (cursor st = Some (page_id_of c))),
             (decide (Some (page_id_of c) = cursor st)); congruence.
Qed.

End Assignment.

(** C1: for every list of chunks, [calculate_chunk_ids] is the
    left-to-right fold of the specification: cursor unset and counter 0
    at the start; at each chunk the page identifier [source:page] is
    compared with the cursor, the counter goes up by one when they are
    equal and back to 0 otherwise, the chunk gets [page_id:counter] as
    its id and the cursor moves to the page identifier. *)
Theorem calculate_chunk_ids_is_fold (chunks : list Document) :
  calculate_chunk_ids chunks = assign_by_fold chunks.
Proof.
  unfold assign_by_fold, calculate_chunk_ids.
  by rewrite fold_from_state.
Qed.

(** ** Counters: local and closed forms *)

Section Counters.

Context {K : Type} `{EqDecision K}.
Implicit Types (keys : list K) (last : option K) (n : Z).

(** The counter of the first key. *)
Lemma indices_head last n k keys :
  indices last n (k :: keys) !! 0%nat
  = Some (if decide (Some k = last) then n + 1 else 0).
Proof. done. Qed.

(** The counter of a later key, from the counter before it. *)
Lemma indices_next last n keys (i : nat) a b m :
  keys !! i = Some a → keys !! S i = Some b →
  indices last n keys !! i = Some m →
  indices last n keys !! S i = Some (if decide (b = a) then m + 1 else 0).
Proof.
  revert last n i. induction keys as [|k keys IH]; intros last n i; [done|].
  destruct i as [|i]; cbn [indices lookup list_lookup].
  - intros [= ->] Hb [= <-]. destruct keys as [|k' keys]; [done|].
    simpl in Hb. injection Hb as ->. simpl.
    f_equal. destruct (decide (Some b = Some a)), (decide (b = a)); congruence.
  - intros Ha Hb Hm. by apply (IH _ _ i).
Qed.

Lemma indices_nonneg last n keys :
  -1 ≤ n → Forall (λ m, 0 ≤ m) (indices last n keys).
Proof.
  revert last n. induction keys as [|k keys IH]; intros last n Hn; simpl.
  - constructor.
  - constructor; [destruct (decide _); lia|].
    apply IH. destruct (decide _); lia.
Qed.

(** ** Grouped sequences of keys *)

Lemma grouped_tail k keys : grouped (k :: keys) = true → grouped keys = true.
Proof. simpl. intros [_ ?]%andb_true_iff. done. Qed.

Lemma grouped_head k keys (i : nat) :
  grouped (k :: keys) = true → keys !! i = Some k → head keys = Some k.
Proof.
  simpl. intros [Hk _]%andb_true_iff Hi.
  apply orb_true_iff in Hk as [Hk|Hk].
  - apply bool_decide_eq_true in Hk. destruct Hk.
    by apply list_elem_of_lookup_2 in Hi.
  - by apply bool_decide_eq_true in Hk.
Qed.

Lemma grouped_contiguous keys : grouped keys = true ↔ contiguous keys.
Proof.
  split.
  - induction keys as [|k keys IH]; intros Hg i m j x Him Hi Hj.
    { done. }
    pose proof (grouped_tail _ _ Hg) as Hg'.
    destruct i as [|i].
    + simpl in Hi. injection Hi as ->.
      destruct j as [|j]; [lia|]. simpl in Hj.
      pose proof (grouped_head _ _ _ Hg Hj) as Hh.
      destruct m as [|m]; [lia|]. simpl.
      destruct m as [|m].
      * by destruct keys.
      * apply (IH Hg' 0%nat (S m) j); [lia| |done].
        by destruct keys.
    + destruct m as [|m]; [lia|]. destruct j as [|j]; [lia|].
      simpl in *. apply (IH Hg' i m j); [lia|done|done].
  - induction keys as [|k keys IH]; intros Hc; [done|].
    simpl. apply andb_true_iff. split.
    + destruct (decide (k ∈ keys)) as [Hin|Hin].
      * apply orb_true_iff. right. apply bool_decide_eq_true.
        apply list_elem_of_lookup_1 in Hin as [j Hj].
        destruct j as [|j]; [by destruct keys|].
        specialize (Hc 0%nat 1%nat (S (S j)) k).
        simpl in Hc. destruct keys; [done|]. simpl in *.
        apply Hc; [lia|done|done].
      * apply orb_true_iff. left. by apply bool_decide_eq_true.
    + apply IH. intros i m j x Him Hi Hj.
      apply (Hc (S i) (S m) (S j) x); [lia|done|done].
Qed.

(** Within a group that continues, every later counter is larger. *)
Lemma indices_after_gt k n keys (i : nat) m :
  grouped (k :: keys) = true →
  keys !! i = Some k → indices (Some k) n keys !! i = Some m → n < m.
Proof.
  revert n i. induction keys as [|k1 keys IH]; intros n i Hg Hi Hm; [done|].
  pose proof (grouped_head _ _ _ Hg Hi) as Hh. simpl in Hh.
  injection Hh as ->.
  cbn [indices] in Hm. rewrite decide_True in Hm by done.
  destruct i as [|i]; simpl in Hi, Hm.
  - injection Hm as <-. lia.
  - apply grouped_tail in Hg.
    pose proof (IH _ _ Hg Hi Hm). lia.
Qed.

(** In a grouped sequence no (key, counter) pair comes twice. *)
Lemma grouped_pairs_NoDup last n keys :
  grouped keys = true → NoDup (zip keys (indices last n keys)).
Proof.
  revert last n. induction keys as [|k keys IH]; intros last n Hg.
  { constructor. }
  cbn [indices zip zip_with].
  set (n' := if decide (Some k = last) then n + 1 else 0).
  apply NoDup_cons. split.
  - intros Hin. apply list_elem_of_lookup_1 in Hin as [i Hi].
    apply lookup_zip_with_Some in Hi as (k' & m & [= <- <-] & Hk & Hm).
    pose proof (indices_after_gt _ _ _ _ _ Hg Hk Hm). lia.
  - apply IH. by apply grouped_tail in Hg.
Qed.

End Counters.

(** ** The chunks returned *)

Section Returned.

Implicit Types (chunks : list Document) (last : option string) (n : Z).

Lemma tag_same_but_id c n : same_but_id c (tag c n).
Proof.
  unfold same_but_id, tag, set_metadata. simpl. repeat split.
  - apply delete_insert_eq.
  - rewrite lookup_insert_eq. by eexists.
Qed.

Lemma field_text_get c key :
  field_text c key = py_str (dict_get (metadata c) key).
Proof. unfold field_text, dict_get. by destruct (metadata c !! key). Qed.

(** Every chunk comes back tagged with a counter that is not negative. *)
Lemma loop_tagged last n chunks :
  -1 ≤ n →
  Forall2 (λ c c', ∃ m, 0 ≤ m ∧ c' = tag c m)
    chunks (calculate_chunk_ids_loop last n chunks).
Proof.
  revert last n. induction chunks as [|c chunks IH]; intros last n Hn.
  { constructor. }
  cbn [calculate_chunk_ids_loop]. fold (page_id_of c).
  set (n' := if decide (Some (page_id_of c) = last) then n + 1 else 0).
  assert (0 ≤ n') by (subst n'; destruct (decide _); lia).
  constructor.
  - exists n'. done.
  - apply IH. lia.
Qed.

(** A run of chunks of one page counts up by one from its first counter. *)
Lemma read_ids_one_page last n chunks P :
  Forall (λ c, page_id_of c = P) chunks →
  map read_id (calculate_chunk_ids_loop last n chunks)
  = map (λ i : nat,
           Some (PyStr (id_string P
             ((if decide (Some P = last) then n + 1 else 0) + Z.of_nat i))))
      (seq 0 (length chunks)).
Proof.
  revert last n. induction chunks as [|c chunks IH]; intros last n Hc; [done|].
  apply Forall_cons in Hc as [HP Hc].
  cbn [calculate_chunk_ids_loop length seq map].
  fold (page_id_of c). fold (id_string (page_id_of c)
    (if decide (Some (page_id_of c) = last) then n + 1 else 0)).
  fold (tag c (if decide (Some (page_id_of c) = last) then n + 1 else 0)).
  rewrite read_id_tag, HP. f_equal.
  { do 3 f_equal. lia. }
  rewrite (IH _ _ Hc). rewrite decide_True by done.
  rewrite <- seq_shift, map_map. apply map_ext. intros i.
  do 3 f_equal. lia.
Qed.

(** The loop over a concatenation: the second part runs from the
    state the first part leaves. *)
Lemma loop_app last n chunks1 chunks2 :
  ∃ last' n',
    calculate_chunk_ids_loop last n (chunks1 ++ chunks2)
    = calculate_chunk_ids_loop last n chunks1
      ++ calculate_chunk_ids_loop last' n' chunks2
    ∧ (-1 ≤ n → -1 ≤ n').
Proof.
  revert last n. induction chunks1 as [|c chunks1 IH]; intros last n.
  - exists last, n. done.
  - cbn [app calculate_chunk_ids_loop]. fold (page_id_of c).
    destruct (IH (Some (page_id_of c))
                (if decide (Some (page_id_of c) = last) then n + 1 else 0))
      as (last' & n' & -> & Hn).
    exists last', n'. split; [done|].
    intros ?. apply Hn. destruct (decide _); lia.
Qed.

End Returned.

(** ** The update in place *)

Section InPlace.

Implicit Types (refs : list positive) (objects : gmap positive Document).

(** X7: on a list of distinct references the loop on objects leaves
    in the store, at each reference of the list, the chunk that the
    loop on values returns at that position, and touches no other
    object. *)
Lemma in_place_agrees last n refs objects chunks :
  NoDup refs →
  Forall2 (λ r c, objects !! r = Some c) refs chunks →
  Forall2 (λ r c', calculate_chunk_ids_in_place last n refs objects !! r
                   = Some c')
    refs (calculate_chunk_ids_loop last n chunks)
  ∧ ∀ r, r ∉ refs →
      calculate_chunk_ids_in_place last n refs objects !! r = objects !! r.
Proof.
  revert last n objects chunks.
  induction refs as [|r refs IH]; intros last n objects chunks Hnd Hobj.
  - apply Forall2_nil_inv_l in Hobj as ->. split; [constructor|done].
  - apply Forall2_cons_inv_l in Hobj as (c & chunks' & Hr & Hrest & ->).
    apply NoDup_cons in Hnd as [Hnin Hnd].
    cbn [calculate_chunk_ids_in_place calculate_chunk_ids_loop]. rewrite Hr.
    match goal with |- context [<[r := ?c']> objects] =>
      set (objects1 := <[r := c']> objects) end.
    assert (Hrest1 : Forall2 (λ r0 c0, objects1 !! r0 = Some c0) refs chunks').
    { apply Forall2_same_length_lookup in Hrest as [Hlen Hrest].
      apply Forall2_same_length_lookup. split; [done|].
      intros i r0 c0 Hi Hc. subst objects1. rewrite lookup_insert_ne.
      - by apply (Hrest i).
      - intros ->. apply Hnin. by eapply list_elem_of_lookup_2. }
    match goal with |- context [calculate_chunk_ids_in_place ?l ?m refs _] =>
      destruct (IH l m objects1 chunks' Hnd Hrest1) as [Hall Hframe] end.
    split.
    + constructor; [|exact Hall].
      rewrite Hframe by done. subst objects1. apply lookup_insert_eq.
    + intros r0 [Hne Hr0]%not_elem_of_cons.
      rewrite Hframe by done. subst objects1. by apply lookup_insert_ne.
Qed.

(** An object listed twice is updated twice and keeps the second id:
    both positions of the list then show [a.pdf:0:1]. *)
Example in_place_shared :
  read_id <$> calculate_chunk_ids_in_place None 0 [1; 1]%positive sample_shared
              !! 1%positive
  = Some (Some (PyStr "a.pdf:0:1")).
Proof. reflexivity. Qed.

End InPlace.

Lemma in_place_agrees_witness :
  NoDup [1; 2]%positive
  ∧ Forall2 (λ r c, sample_objects !! r = Some c) [1; 2]%positive
      [pdf_chunk "a.pdf" 0 "t0"; pdf_chunk "a.pdf" 0 "t1"]
  ∧ Forall2
      (λ r c', calculate_chunk_ids_in_place None 0 [1; 2]%positive
                 sample_objects !! r = Some c')
      [1; 2]%positive
      [tag (pdf_chunk "a.pdf" 0 "t0") 0; tag (pdf_chunk "a.pdf" 0 "t1") 1].
Proof.
  assert (H1 : NoDup [1; 2]%positive).
  { apply NoDup_cons. split; [|apply NoDup_singleton].
    intros Hin. apply list_elem_of_singleton in Hin. discriminate. }
  assert (H2 : Forall2 (λ r c, sample_objects !! r = Some c) [1; 2]%positive
                 [pdf_chunk "a.pdf" 0 "t0"; pdf_chunk "a.pdf" 0 "t1"])
    by (repeat constructor).
  split; [exact H1|]. split; [exact H2|].
  exact (proj1 (in_place_agrees None 0 [1; 2]%positive sample_objects
                  [pdf_chunk "a.pdf" 0 "t0"; pdf_chunk "a.pdf" 0 "t1"] H1 H2)).
Defined.

(** C7: for every list of chunks, [calculate_chunk_ids] returns as
    many chunks, in the same order, and each returned chunk is the
    chunk given with its text unchanged and its metadata unchanged but
    for the key ["id"], which is set. *)
Theorem calculate_chunk_ids_same_chunks (chunks : list Document) :
  length (calculate_chunk_ids chunks) = length chunks
  ∧ Forall2 same_but_id chunks (calculate_chunk_ids chunks).
Proof.
  split; [apply loop_length|].
  unfold calculate_chunk_ids.
  eapply Forall2_impl; [apply loop_tagged; lia|].
  intros c c' (m & _ & ->). apply tag_same_but_id.
Qed.

(** C6: for every non-empty list of chunks that all have the same
    source and the same page, the ids are [source:page:0],
    [source:page:1], ... in the order of the input: the chunk at
    position [i] gets the index [i]. *)
Theorem one_page_ids (chunks : list Document) (source page : pyval) :
  chunks ≠ [] →
  Forall (λ c, source_page c = (source, page)) chunks →
  map read_id (calculate_chunk_ids chunks)
  = map (λ i : nat,
           Some (PyStr (py_str source +:+ ":" +:+ py_str page +:+ ":" +:+
                        str_int (Z.of_nat i))))
      (seq 0 (length chunks)).
Proof.
  intros _ Hsp. unfold calculate_chunk_ids.
  rewrite (read_ids_one_page _ _ _ (py_str source +:+ ":" +:+ py_str page)).
  - apply map_ext. intros i. rewrite decide_False by done.
    unfold id_string. by rewrite !append_assoc.
  - eapply Forall_impl; [exact Hsp|].
    intros c [= Hs Hp]. unfold page_id_of. by rewrite Hs, Hp.
Qed.

Lemma one_page_ids_witness :
  sample_one_page ≠ []
  ∧ Forall (λ c, source_page c = (PyStr "a.pdf", PyInt 0)) sample_one_page
  ∧ map read_id (calculate_chunk_ids sample_one_page)
    = [ Some (PyStr "a.pdf:0:0"); Some (PyStr "a.pdf:0:1");
        Some (PyStr "a.pdf:0:2") ].
Proof.
  assert (H1 : sample_one_page ≠ []) by discriminate.
  assert (H2 : Forall (λ c, source_page c = (PyStr "a.pdf", PyInt 0))
                 sample_one_page) by (repeat constructor).
  split; [exact H1|]. split; [exact H2|].
  exact (one_page_ids sample_one_page (PyStr "a.pdf") (PyInt 0) H1 H2).
Defined.

(** C10: chunks without ["source"] or ["page"] are handled like any
    other.  For every list of chunks the function returns a chunk with
    an id for each chunk given; the id is [source:page:k] with [None]
    written for a field that is absent and [k] not negative; and the
    chunks of a run in which both fields are absent share one counter:
    their ids are [None:None:k0], [None:None:k0+1], ... *)
Theorem missing_metadata_ids (before run after : list Document) :
  forallb lacks_both run = true →
  let chunks := before ++ run ++ after in
  let out := calculate_chunk_ids chunks in
  length out = length chunks
  ∧ Forall2 (λ c c', ∃ k, 0 ≤ k ∧
       read_id c' = Some (PyStr (field_text c "source" +:+ ":" +:+
                                 field_text c "page" +:+ ":" +:+ str_int k)))
      chunks out
  ∧ ∃ k0, 0 ≤ k0 ∧
      map read_id (take (length run) (drop (length before) out))
      = map (λ i : nat,
               Some (PyStr ("None:None:" +:+ str_int (k0 + Z.of_nat i))))
          (seq 0 (length run)).
Proof.
  intros Hrun chunks out. subst chunks out. unfold calculate_chunk_ids.
  split; [apply loop_length|]. split.
  - eapply Forall2_impl; [apply loop_tagged; lia|].
    intros c c' (m & Hm & ->). exists m. split; [done|].
    rewrite read_id_tag. unfold id_string, page_id_of.
    by rewrite !field_text_get, !append_assoc.
  - destruct (loop_app None 0 before (run ++ after))
      as (last1 & n1 & -> & Hn1).
    destruct (loop_app last1 n1 run after) as (last2 & n2 & -> & _).
    rewrite drop_app_length' by (by rewrite loop_length).
    rewrite take_app_length' by (by rewrite loop_length).
    rewrite (read_ids_one_page _ _ _ "None:None").
    + exists (if decide (Some "None:None" = last1) then n1 + 1 else 0).
      split; [|done].
      specialize (Hn1 ltac:(lia)). destruct (decide _); lia.
    + apply Forall_forall. intros c Hc.
      pose proof (proj1 (forallb_forall _ _) Hrun c
                    (proj1 (list_elem_of_In _ _) Hc)) as Hl.
      unfold lacks_both in Hl. apply andb_true_iff in Hl as [Hs Hp].
      apply bool_decide_eq_true in Hs, Hp.
      unfold page_id_of, dict_get. by rewrite Hs, Hp.
Qed.

Lemma missing_metadata_ids_witness :
  forallb lacks_both [bare_chunk "t1"; bare_chunk "t2"] = true
  ∧ map read_id (calculate_chunk_ids sample_missing)
    = [ Some (PyStr "a.pdf:0:0"); Some (PyStr "None:None:0");
        Some (PyStr "None:None:1") ]
  ∧ ∃ k0, 0 ≤ k0 ∧
      map read_id (take 2 (drop 1 (calculate_chunk_ids sample_missing)))
      = map (λ i : nat,
               Some (PyStr ("None:None:" +:+ str_int (k0 + Z.of_nat i))))
          (seq 0 2).
Proof.
  split; [reflexivity|]. split; [reflexivity|].
  exact (proj2 (proj2
    (missing_metadata_ids [pdf_chunk "a.pdf" 0 "t0"]
       [bare_chunk "t1"; bare_chunk "t2"] [] eq_refl))).
Defined.

(** ** Uniqueness of the ids *)

Section Unique.

Implicit Types (chunks : list Document).

Global Instance id_of_pair_inj :
  Inj (=) (=) (uncurry (λ (k : string) (m : Z), Some (PyStr (id_string k m)))).
Proof.
  intros [p1 n1] [p2 n2] [= E]. simpl in E.
  apply id_string_inj in E as [-> ->]. done.
Qed.

(** Ids are unique as soon as the chunks of each page identifier stand
    together. *)
Lemma page_id_grouped_unique chunks :
  grouped (map page_id_of chunks) = true →
  NoDup (map read_id (calculate_chunk_ids chunks)).
Proof.
  intros Hg. unfold calculate_chunk_ids. rewrite read_ids_loop.
  rewrite (zip_with_zip (λ k m, Some (PyStr (id_string k m)))).
  apply (NoDup_fmap_2 _).
  by apply grouped_pairs_NoDup.
Qed.

(** With the loader's metadata the page identifier determines the
    source and the page. *)
Lemma loader_page_id_inj c1 c2 :
  loader_metadata c1 = true → loader_metadata c2 = true →
  page_id_of c1 = page_id_of c2 → source_page c1 = source_page c2.
Proof.
  unfold loader_metadata, page_id_of, source_page.
  destruct (dict_get (metadata c1) "source") as [|s1|],
           (dict_get (metadata c1) "page") as [| |z1]; try discriminate.
  destruct (dict_get (metadata c2) "source") as [|s2|],
           (dict_get (metadata c2) "page") as [| |z2]; try discriminate.
  intros _ _ E. simpl in E.
  apply cut_at_last in E as [-> E]; auto using str_int_no_colon.
  apply str_int_inj in E as ->. done.
Qed.

Lemma loader_grouped chunks :
  forallb loader_metadata chunks = true →
  grouped (map source_page chunks) = true →
  grouped (map page_id_of chunks) = true.
Proof.
  intros Hl Hg. apply grouped_contiguous. apply grouped_contiguous in Hg.
  assert (Hl' : ∀ (i : nat) c, chunks !! i = Some c → loader_metadata c = true).
  { intros i c Hi. apply (proj1 (forallb_forall _ _) Hl).
    apply list_elem_of_In. by eapply list_elem_of_lookup_2. }
  intros i m j k Him Hi Hj.
  rewrite list_lookup_fmap in Hi, Hj |- *.
  destruct (chunks !! i) as [ci|] eqn:Ei; [|done].
  destruct (chunks !! j) as [cj|] eqn:Ej; [|done].
  destruct (lookup_lt_is_Some_2 chunks m) as [cm Em].
  { apply lookup_lt_Some in Ej. lia. }
  rewrite Em. simpl in *. injection Hi as Hi. injection Hj as Hj.
  assert (Hsp : source_page ci = source_page cj).
  { apply loader_page_id_inj; eauto. congruence. }
  specialize (Hg i m j (source_page ci) Him).
  rewrite !list_lookup_fmap, Ei, Ej, Em in Hg. simpl in Hg.
  specialize (Hg eq_refl (f_equal Some (eq_sym Hsp))).
  injection Hg as Hs Hp. f_equal. rewrite <- Hi.
  unfold page_id_of. by rewrite Hs, Hp.
Qed.

(** The id at a position where the page identifier changes. *)
Lemma read_id_at_change chunks (i : nat) c1 c2 :
  chunks !! i = Some c1 → chunks !! S i = Some c2 →
  page_id_of c1 ≠ page_id_of c2 →
  map read_id (calculate_chunk_ids chunks) !! S i
  = Some (Some (PyStr (id_string (page_id_of c2) 0))).
Proof.
  intros H1 H2 Hne. unfold calculate_chunk_ids. rewrite read_ids_loop.
  set (keys := map page_id_of chunks).
  assert (Hk1 : keys !! i = Some (page_id_of c1))
    by (subst keys; by rewrite list_lookup_fmap, H1).
  assert (Hk2 : keys !! S i = Some (page_id_of c2))
    by (subst keys; by rewrite list_lookup_fmap, H2).
  destruct (lookup_lt_is_Some_2 (indices None 0 keys) i) as [m Hm].
  { rewrite length_indices. by eapply lookup_lt_Some. }
  pose proof (indices_next None 0 keys i _ _ m Hk1 Hk2 Hm) as Hn.
  rewrite decide_False in Hn by done.
  rewrite lookup_zip_with, Hk2, Hn. done.
Qed.

End Unique.

(** C2, amended: for every list of chunks that carry the loader's
    metadata (a string source and an integer page) and in which the
    chunks of each (source, page) pair stand together, no two chunks
    get the same id, the first chunk gets the index 0, and the index is
    0 again wherever the (source, page) pair changes.  For chunks with
    other metadata (an absent source and a file named [None]) two pairs
    may be written alike and the ids may collide. *)
Theorem grouped_ids_unique (chunks : list Document) :
  forallb loader_metadata chunks = true →
  grouped (map source_page chunks) = true →
  NoDup (map read_id (calculate_chunk_ids chunks))
  ∧ (∀ c, head chunks = Some c →
       head (map read_id (calculate_chunk_ids chunks))
       = Some (Some (PyStr (id_string (page_id_of c) 0))))
  ∧ (∀ (i : nat) c1 c2,
       chunks !! i = Some c1 → chunks !! S i = Some c2 →
       source_page c1 ≠ source_page c2 →
       map read_id (calculate_chunk_ids chunks) !! S i
       = Some (Some (PyStr (id_string (page_id_of c2) 0)))).
Proof.
  intros Hl Hg. split; [|split].
  - apply page_id_grouped_unique. by apply loader_grouped.
  - intros c Hc. destruct chunks as [|c' chunks]; [done|].
    injection Hc as ->. unfold calculate_chunk_ids.
    rewrite read_ids_loop. done.
  - intros i c1 c2 H1 H2 Hne. apply (read_id_at_change _ _ c1); [done|done|].
    intros E. apply Hne. apply loader_page_id_inj; [| |done].
    + apply (proj1 (forallb_forall _ _) Hl).
      apply list_elem_of_In. by eapply list_elem_of_lookup_2.
    + apply (proj1 (forallb_forall _ _) Hl).
      apply list_elem_of_In. by eapply list_elem_of_lookup_2.
Qed.

Lemma grouped_ids_unique_witness :
  forallb loader_metadata sample_grouped = true
  ∧ grouped (map source_page sample_grouped) = true
  ∧ NoDup (map read_id (calculate_chunk_ids sample_grouped))
  ∧ map read_id (calculate_chunk_ids sample_grouped) !! 2%nat
    = Some (Some (PyStr "a.pdf:1:0")).
Proof.
  split; [reflexivity|]. split; [reflexivity|].
  pose proof (grouped_ids_unique sample_grouped eq_refl eq_refl)
    as (Hnd & _ & Hreset).
  split; [exact Hnd|].
  apply (Hreset 1%nat (pdf_chunk "a.pdf" 0 "t1") (pdf_chunk "a.pdf" 1 "t2"));
    [reflexivity|reflexivity|discriminate].
Defined.

(** C2 as stated fails: three chunks of three different (source, page)
    pairs, each group contiguous, of which the first and the third get
    the id [None:1:0]; and two chunks of different pairs at whose
    boundary the counter goes on to 1. *)
Lemma contiguous_pairs_can_collide :
  grouped (map source_page sample_none_clash) = true
  ∧ ¬ NoDup (map read_id (calculate_chunk_ids sample_none_clash))
  ∧ map read_id (calculate_chunk_ids sample_none_clash)
    = [ Some (PyStr "None:1:0"); Some (PyStr "x:1:0");
        Some (PyStr "None:1:0") ]
  ∧ source_page (bare_page_chunk 1 "t0") ≠ source_page (pdf_chunk "None" 1 "t1")
  ∧ map read_id (calculate_chunk_ids
                   [bare_page_chunk 1 "t0"; pdf_chunk "None" 1 "t1"])
    = [ Some (PyStr "None:1:0"); Some (PyStr "None:1:1") ].
Proof.
  split; [reflexivity|]. split; [|split; [reflexivity|]].
  - intros Hnd. apply NoDup_cons in Hnd as [Hnin _]. apply Hnin.
    apply list_elem_of_further, list_elem_of_here.
  - split; [discriminate|reflexivity].
Qed.

(** * Properties of the driver *)

Section Store.

Implicit Types (w : World) (chunks cs : list Document)
  (existing : gset pyval).

(** The set built from [db.get] is the set of keys of the collection. *)
Lemma existing_is_dom (store : gmap pyval Document) :
  list_to_set (map fst (map_to_list store)) =@{gset pyval} dom store.
Proof. apply leibniz_equiv. by rewrite dom_alt. Qed.

(** When every id is in the store the comprehension keeps no chunk,
    and reading the ids raises no [KeyError]. *)
Lemma not_in_existing_all_known cs existing w :
  Forall (λ c, ∃ i, read_id c = Some i ∧ i ∈ existing) cs →
  not_in_existing cs existing w = (Returned [], w).
Proof.
  induction 1 as [|c cs (i & Hi & Hin) _ IH]; [done|].
  cbn [not_in_existing]. unfold bind, dict_item.
  unfold read_id in Hi. rewrite Hi. cbn [ret]. rewrite IH.
  by rewrite decide_False by (by intros ?).
Qed.

(** After [calculate_chunk_ids] every chunk has an id to read. *)
Lemma calculate_chunk_ids_have_id chunks :
  Forall (λ c, is_Some (read_id c)) (calculate_chunk_ids chunks).
Proof.
  unfold calculate_chunk_ids.
  pose proof (loop_tagged None 0 chunks ltac:(lia)) as H.
  apply Forall2_Forall_r with (Q := λ c', is_Some (read_id c')) in H; [done|].
  apply Forall_forall. intros c _ c' (m & _ & ->).
  rewrite read_id_tag. by eexists.
Qed.

Lemma known_ids_Forall chunks existing :
  (∀ i, Some i ∈ map read_id (calculate_chunk_ids chunks) → i ∈ existing) →
  Forall (λ c, ∃ i, read_id c = Some i ∧ i ∈ existing)
    (calculate_chunk_ids chunks).
Proof.
  intros Hknown.
  pose proof (calculate_chunk_ids_have_id chunks) as Hid.
  rewrite Forall_forall in Hid. apply Forall_forall. intros c Hc.
  destruct (Hid c Hc) as [i Hi]. exists i. split; [done|].
  apply Hknown. rewrite <- Hi. by apply list_elem_of_fmap_2.
Qed.

(** [add_to_db] on chunks whose ids the store holds. *)
Lemma add_to_db_all_known chunks w :
  (∀ i, Some i ∈ map read_id (calculate_chunk_ids chunks) →
        i ∈ dom (default ∅ (chroma_dir w))) →
  add_to_db chunks w
  = (Returned tt,
     {| chroma_dir := Some (default ∅ (chroma_dir w));
        console := console w ++ ["✅ All documents already in DB"];
        connections := S (connections w) |}).
Proof.
  intros Hknown%known_ids_Forall.
  unfold add_to_db, bind, Chroma, mkdir_chroma_dir, db_get_ids.
  cbn [chroma_dir console connections default from_option id].
  rewrite existing_is_dom.
  rewrite (not_in_existing_all_known _ _ _ Hknown). done.
Qed.

(** The comprehension of [add_to_db] as a filter. *)
Lemma not_in_existing_filter cs existing w :
  Forall (λ c, is_Some (read_id c)) cs →
  not_in_existing cs existing w = (Returned (List.filter (is_new existing) cs), w).
Proof.
  induction 1 as [|c cs [i Hi] _ IH]; [done|].
  cbn [not_in_existing List.filter]. unfold bind, dict_item, is_new.
  unfold read_id in Hi |- *. rewrite Hi. cbn [ret]. rewrite IH.
  destruct (decide (i ∉ existing)).
  - by rewrite bool_decide_true.
  - by rewrite bool_decide_false.
Qed.

End Store.

(** C3: when ingestion is run again on the same chunks against a
    store that holds the ids computed for them, every chunk is
    filtered out and nothing is inserted: [add_to_db] returns, the
    collection is what it was, and the only line printed is the one
    that says that all documents are already there. *)
Theorem rerun_inserts_nothing (chunks : list Document) (w : World) :
  let store := default ∅ (chroma_dir w) in
  (∀ i, Some i ∈ map read_id (calculate_chunk_ids chunks) → i ∈ dom store) →
  not_in_existing (calculate_chunk_ids chunks) (dom store) w
  = (Returned [], w)
  ∧ add_to_db chunks w
    = (Returned tt,
       {| chroma_dir := Some store;
          console := console w ++ ["✅ All documents already in DB"];
          connections := S (connections w) |}).
Proof.
  intros store Hknown. split.
  - by apply not_in_existing_all_known, known_ids_Forall.
  - by apply add_to_db_all_known.
Qed.

Lemma rerun_inserts_nothing_witness :
  let w := sample_world_ingested in
  (∀ i, Some i ∈ map read_id (calculate_chunk_ids sample_grouped) →
        i ∈ dom (default ∅ (chroma_dir w)))
  ∧ add_to_db sample_grouped w
    = (Returned tt,
       {| chroma_dir := chroma_dir w;
          console := ["✅ All documents already in DB"];
          connections := 1 |}).
Proof.
  assert (H : ∀ i, Some i ∈ map read_id (calculate_chunk_ids sample_grouped) →
                i ∈ dom (default ∅ (chroma_dir sample_world_ingested))).
  { intros i Hi. apply elem_of_dom.
    change (map read_id (calculate_chunk_ids sample_grouped))
      with [ Some (PyStr "a.pdf:0:0"); Some (PyStr "a.pdf:0:1");
             Some (PyStr "a.pdf:1:0") ] in Hi.
    rewrite !elem_of_cons, elem_of_nil in Hi.
    destruct Hi as [[= ->]|[[= ->]|[[= ->]|[]]]]; vm_compute; eauto. }
  split; [exact H|].
  exact (proj2 (rerun_inserts_nothing sample_grouped sample_world_ingested H)).
Defined.

Section MainRun.

Variable env : Env.

Implicit Types (w : World) (args : Args).

(** The world after the reset step of [main]. *)
Lemma clear_database_run w :
  clear_database w
  = (Returned tt,
     {| chroma_dir := None; console := console w;
        connections := connections w |}).
Proof.
  unfold clear_database, bind, chroma_dir_exists, rmtree_chroma_dir, ret.
  by destruct w as [[store|] out k].
Qed.

(** [main] when there is nothing to ingest, step by step. *)
Lemma main_nothing_to_ingest args w :
  is_dir env (data_path env (dir args)) = false
  ∨ glob_pdf env (data_path env (dir args)) = [] →
  main env args w
  = (Returned tt,
     {| chroma_dir := if reset args then None else chroma_dir w;
        console := console w
          ++ (if reset args then ["✨ Clearing existing database…"] else [])
          ++ [ (if is_dir env (data_path env (dir args))
                then "❌ No PDF files found in: "
                else "❌ Directory not found: ") +:+ data_path env (dir args) ];
        connections := connections w |}).
Proof.
  intros Hnone. unfold main.
  destruct (reset args); unfold bind at 1.
  - unfold bind at 1. unfold print at 1. rewrite clear_database_run.
    cbn [chroma_dir console connections].
    destruct (is_dir env (data_path env (dir args))) eqn:Hd; cbn [negb].
    + destruct Hnone as [? | ->]; [done|].
      unfold print. cbn [chroma_dir console connections].
      by rewrite <- app_assoc.
    + unfold print. cbn [chroma_dir console connections].
      by rewrite <- app_assoc.
  - cbn [ret].
    destruct (is_dir env (data_path env (dir args))) eqn:Hd; cbn [negb].
    + destruct Hnone as [? | ->]; [done|].
      unfold print. by destruct w.
    + unfold print. by destruct w.
Qed.

(** With the reset flag, [main] is [main] without it, run in the world
    in which the store directory is gone. *)
Lemma main_reset_first d w :
  main env (mkArgs true d) w
  = main env (mkArgs false d)
      {| chroma_dir := None;
         console := console w ++ ["✨ Clearing existing database…"];
         connections := connections w |}.
Proof.
  unfold main. cbn [reset dir].
  unfold bind at 1. unfold bind at 1. unfold print at 1.
  rewrite clear_database_run. cbn [chroma_dir console connections].
  unfold bind at 2. cbn [ret]. done.
Qed.

(** C4: when the ingestion directory does not exist or holds no PDF,
    [main] prints what it found and returns; it builds no Chroma client,
    and without the reset flag it leaves the store as it was. *)
Theorem nothing_to_ingest_returns args w :
  is_dir env (data_path env (dir args)) = false
  ∨ glob_pdf env (data_path env (dir args)) = [] →
  ∃ w',
    main env args w = (Returned tt, w')
    ∧ last (console w')
      = Some ((if is_dir env (data_path env (dir args))
               then "❌ No PDF files found in: "
               else "❌ Directory not found: ") +:+ data_path env (dir args))
    ∧ connections w' = connections w
    ∧ (reset args = false →
       chroma_dir w' = chroma_dir w
       ∧ console w'
         = console w
           ++ [ (if is_dir env (data_path env (dir args))
                 then "❌ No PDF files found in: "
                 else "❌ Directory not found: ") +:+ data_path env (dir args) ]).
Proof.
  intros Hnone. eexists. split; [by apply main_nothing_to_ingest|].
  cbn [chroma_dir console connections]. split; [|split; [done|]].
  - by rewrite !app_assoc, last_snoc.
  - by intros ->.
Qed.

(** C8: with the reset flag the store directory is deleted before
    anything is processed: the run goes on as a run without the flag
    in a world without store directory, and a client built in that
    world fetches no id. *)
Theorem reset_clears_store d w :
  let cleared :=
    {| chroma_dir := None;
       console := console w ++ ["✨ Clearing existing database…"];
       connections := connections w |} in
  chroma_dir (clear_database w).2 = None
  ∧ main env (mkArgs true d) w = main env (mkArgs false d) cleared
  ∧ (let* _ := Chroma in let* _ := mkdir_chroma_dir in db_get_ids) cleared
    = (Returned [],
       {| chroma_dir := Some ∅;
          console := console cleared;
          connections := S (connections w) |}).
Proof.
  intros cleared. split; [by rewrite clear_database_run|].
  split; [apply main_reset_first|].
  subst cleared. unfold bind, Chroma, mkdir_chroma_dir, db_get_ids.
  cbn [chroma_dir console connections default from_option id].
  by rewrite map_to_list_empty.
Qed.

(** C9: with the reset flag the store directory is deleted before the
    ingestion directory is looked at: when that directory does not
    exist or holds no PDF, [main] returns without error and the store
    directory is gone all the same. *)
Theorem reset_before_directory_check d w :
  is_dir env (data_path env d) = false ∨ glob_pdf env (data_path env d) = [] →
  ∃ w',
    main env (mkArgs true d) w = (Returned tt, w')
    ∧ chroma_dir w' = None
    ∧ connections w' = connections w
    ∧ console w'
      = console w
        ++ [ "✨ Clearing existing database…";
             (if is_dir env (data_path env d)
              then "❌ No PDF files found in: "
              else "❌ Directory not found: ") +:+ data_path env d ].
Proof.
  intros Hnone. eexists.
  split; [by apply (main_nothing_to_ingest (mkArgs true d))|].
  cbn [chroma_dir console connections reset dir]. done.
Qed.

End MainRun.

(** An ingested store, a missing directory, no reset. *)
Lemma nothing_to_ingest_returns_witness :
  ∃ w',
    main env_no_dir (mkArgs false "docs") sample_world_ingested
    = (Returned tt, w')
    ∧ connections w' = 0%nat
    ∧ chroma_dir w' = chroma_dir sample_world_ingested
    ∧ console w' = ["❌ Directory not found: data/docs"].
Proof.
  destruct (nothing_to_ingest_returns env_no_dir (mkArgs false "docs")
              sample_world_ingested (or_introl eq_refl))
    as (w' & Hrun & _ & Hconn & Hkeep).
  destruct (Hkeep eq_refl) as [Hstore Hout].
  exists w'. repeat split; [exact Hrun|exact Hconn|exact Hstore|exact Hout].
Defined.

(** An ingested store, a directory without PDF, reset. *)
Lemma reset_before_directory_check_witness :
  ∃ w',
    main env_no_pdf (mkArgs true "docs") sample_world_ingested
    = (Returned tt, w')
    ∧ chroma_dir w' = None.
Proof.
  destruct (reset_before_directory_check env_no_pdf "docs"
              sample_world_ingested (or_intror eq_refl))
    as (w' & Hrun & Hgone & _).
  exists w'. split; [exact Hrun|exact Hgone].
Defined.

(** * Further properties of the identifier assignment *)

Section Collisions.

Context {K : Type} `{EqDecision K}.
Implicit Types (keys : list K) (last : option K) (n : Z).

(** A sequence that is not grouped has a key that comes again later
    but not at the next position. *)
Lemma grouped_false_split keys :
  grouped keys = false →
  ∃ pre k rest, keys = pre ++ k :: rest ∧ k ∈ rest ∧ head rest ≠ Some k.
Proof.
  induction keys as [|k keys IH]; [done|].
  simpl. intros [Hk|Hg]%andb_false_iff.
  - apply orb_false_iff in Hk as [Hin Hh].
    apply bool_decide_eq_false in Hin, Hh.
    exists [], k, keys. split; [done|]. split; [|done].
    by destruct (decide (k ∈ keys)).
  - destruct (IH Hg) as (pre & k' & rest & -> & Hin & Hh).
    by exists (k :: pre), k', rest.
Qed.

(** The first occurrence of a key after another key restarts at 0. *)
Lemma zero_after_other last n k keys :
  k ∈ keys → head keys ≠ Some k →
  ∃ i : nat, keys !! i = Some k ∧ indices last n keys !! i = Some 0.
Proof.
  revert last n. induction keys as [|k1 keys IH]; intros last n Hin Hh.
  { by apply elem_of_nil in Hin. }
  apply elem_of_cons in Hin as [->|Hin]; [done|].
  assert (k1 ≠ k) by (intros ->; done).
  destruct (decide (head keys = Some k)) as [Hk|Hk].
  - exists 1%nat. destruct keys as [|k2 keys]; [done|].
    simpl in Hk. injection Hk as ->. cbn [indices lookup list_lookup].
    split; [done|]. rewrite (decide_False (P := Some k = Some k1)); [done|].
    congruence.
  - destruct (IH (Some k1) (if decide (Some k1 = last) then n + 1 else 0)
                Hin Hk) as (i & Hi & Hz).
    by exists (S i).
Qed.

(** So does the first occurrence of a key that the cursor does not hold. *)
Lemma zero_first last n k keys :
  k ∈ keys → last ≠ Some k →
  ∃ i : nat, keys !! i = Some k ∧ indices last n keys !! i = Some 0.
Proof.
  intros Hin Hlast. destruct (decide (head keys = Some k)) as [Hk|Hk].
  - exists 0%nat. destruct keys as [|k1 keys]; [done|].
    simpl in Hk. injection Hk as ->. cbn [indices lookup list_lookup].
    split; [done|]. rewrite decide_False; [done|congruence].
  - by apply zero_after_other.
Qed.

Lemma indices_app_cons last n pre k rest :
  ∃ n', indices last n (pre ++ k :: rest)
        = indices last n (pre ++ [k]) ++ indices (Some k) n' rest.
Proof.
  revert last n. induction pre as [|k1 pre IH]; intros last n.
  - by eexists.
  - cbn [app indices].
    destruct (IH (Some k1) (if decide (Some k1 = last) then n + 1 else 0))
      as (n' & ->).
    by exists n'.
Qed.

(** In a sequence that is not grouped two positions hold the same key
    with the counter 0. *)
Lemma ungrouped_two_zeros keys :
  grouped keys = false →
  ∃ (i j : nat) k, i ≠ j
    ∧ keys !! i = Some k ∧ indices None 0 keys !! i = Some 0
    ∧ keys !! j = Some k ∧ indices None 0 keys !! j = Some 0.
Proof.
  intros (pre & k & rest & -> & Hin & Hh)%grouped_false_split.
  destruct (indices_app_cons None 0 pre k rest) as (n' & Hidx).
  destruct (zero_first None 0 k (pre ++ [k])) as (i & Hi & Hzi); [|done|].
  { apply elem_of_app. right. apply list_elem_of_here. }
  destruct (zero_after_other (Some k) n' k rest Hin Hh) as (j & Hj & Hzj).
  pose proof (lookup_lt_Some _ _ _ Hi) as Hlt.
  assert (Hlen : length (indices None 0 (pre ++ [k])) = length (pre ++ [k]))
    by apply length_indices.
  exists i, (length (pre ++ [k]) + j)%nat, k.
  split; [lia|]. rewrite Hidx.
  replace (pre ++ k :: rest) with ((pre ++ [k]) ++ rest)
    by (by rewrite <- app_assoc).
  split; [by rewrite lookup_app_l|].
  split; [by rewrite lookup_app_l by lia|].
  split; [by rewrite lookup_app_r, Nat.add_comm, Nat.add_sub by lia|].
  rewrite lookup_app_r by lia.
  by replace (length (pre ++ [k]) + j - length (indices None 0 (pre ++ [k])))%nat
    with j by lia.
Qed.

End Collisions.

Section MoreIds.

Implicit Types (chunks : list Document) (last : option string) (n : Z).

(** The id at a position: the page identifier of the chunk there and
    the counter there. *)
Lemma read_ids_lookup chunks (i : nat) c :
  chunks !! i = Some c →
  ∃ m, 0 ≤ m
    ∧ indices None 0 (map page_id_of chunks) !! i = Some m
    ∧ map read_id (calculate_chunk_ids chunks) !! i
      = Some (Some (PyStr (id_string (page_id_of c) m))).
Proof.
  intros Hc. unfold calculate_chunk_ids. rewrite read_ids_loop.
  destruct (lookup_lt_is_Some_2 (indices None 0 (map page_id_of chunks)) i)
    as [m Hm].
  { rewrite length_indices, length_map. by eapply lookup_lt_Some. }
  exists m. split; [|split; [done|]].
  - pose proof (indices_nonneg None 0 (map page_id_of chunks) ltac:(lia)) as Hn.
    rewrite Forall_forall in Hn. apply Hn. by eapply list_elem_of_lookup_2.
  - by rewrite lookup_zip_with, list_lookup_fmap, Hc, Hm.
Qed.

Lemma page_id_of_set_id c v :
  page_id_of (set_metadata c "id" v) = page_id_of c.
Proof.
  unfold page_id_of, set_metadata, dict_get. simpl.
  by rewrite !lookup_insert_ne.
Qed.

Lemma page_id_of_tag c m : page_id_of (tag c m) = page_id_of c.
Proof. apply page_id_of_set_id. Qed.

Lemma tag_tag c m m' : tag (tag c m) m' = tag c m'.
Proof.
  unfold tag. rewrite page_id_of_set_id.
  unfold set_metadata. simpl. by rewrite insert_insert_eq.
Qed.

Lemma page_ids_of_tagged chunks (ms : list Z) :
  length ms = length chunks →
  map page_id_of (zip_with tag chunks ms) = map page_id_of chunks.
Proof.
  revert ms. induction chunks as [|c chunks IH]; intros [|m ms] Hlen;
    try discriminate; [done|].
  cbn [zip_with map]. rewrite IH by (by injection Hlen).
  by rewrite page_id_of_tag.
Qed.

Lemma page_ids_of_source_pages chunks1 chunks2 :
  map source_page chunks1 = map source_page chunks2 →
  map page_id_of chunks1 = map page_id_of chunks2.
Proof.
  revert chunks2. induction chunks1 as [|c1 chunks1 IH]; intros [|c2 chunks2];
    try discriminate; [done|].
  cbn [map]. intros [= Hs Hp Hrest]. rewrite (IH _ Hrest).
  unfold page_id_of. by rewrite Hs, Hp.
Qed.

End MoreIds.

(** C5: there is a list of chunks, fresh from the loader (a string
    source, an integer page, no id yet), in which the chunks of one
    (source, page) pair do not stand together and in which two
    different chunks get the same id: page 0, page 1, page 0 again
    gives [a.pdf:0:0] to the first and to the third chunk.  And this is
    what the reset of the counter does to every list in which a page
    identifier comes back after another one: two chunks of that page
    identifier, at different positions, get the id [page_id:0]. *)
Theorem interleaved_pages_collide :
  (∃ (chunks : list Document) (i j : nat) (c1 c2 : Document),
     forallb loader_metadata chunks = true
     ∧ Forall (λ c, read_id c = None) chunks
     ∧ grouped (map source_page chunks) = false
     ∧ i ≠ j
     ∧ chunks !! i = Some c1 ∧ chunks !! j = Some c2 ∧ c1 ≠ c2
     ∧ map read_id (calculate_chunk_ids chunks)
       = [ Some (PyStr "a.pdf:0:0"); Some (PyStr "a.pdf:1:0");
           Some (PyStr "a.pdf:0:0") ]
     ∧ map read_id (calculate_chunk_ids chunks) !! i
       = Some (Some (PyStr (id_string (page_id_of c1) 0)))
     ∧ map read_id (calculate_chunk_ids chunks) !! j
       = Some (Some (PyStr (id_string (page_id_of c1) 0))))
  ∧ ∀ chunks : list Document,
      grouped (map page_id_of chunks) = false →
      ∃ (i j : nat) (c1 c2 : Document),
        i ≠ j
        ∧ chunks !! i = Some c1 ∧ chunks !! j = Some c2
        ∧ page_id_of c1 = page_id_of c2
        ∧ map read_id (calculate_chunk_ids chunks) !! i
          = Some (Some (PyStr (id_string (page_id_of c1) 0)))
        ∧ map read_id (calculate_chunk_ids chunks) !! j
          = Some (Some (PyStr (id_string (page_id_of c1) 0))).
Proof.
  split.
  - exists sample_interleaved, 0%nat, 2%nat,
      (pdf_chunk "a.pdf" 0 "t0"), (pdf_chunk "a.pdf" 0 "t2").
    split; [reflexivity|]. split; [by repeat constructor|].
    split; [reflexivity|]. split; [lia|].
    split; [reflexivity|]. split; [reflexivity|].
    split; [intros E; by apply (f_equal page_content) in E|].
    split; [reflexivity|]. split; reflexivity.
  - intros chunks Hg.
    destruct (ungrouped_two_zeros _ Hg)
      as (i & j & k & Hij & Hi & Hzi & Hj & Hzj).
    rewrite list_lookup_fmap in Hi, Hj.
    destruct (chunks !! i) as [c1|] eqn:E1; [|done].
    destruct (chunks !! j) as [c2|] eqn:E2; [|done].
    simpl in Hi, Hj. injection Hi as Hi. injection Hj as Hj.
    exists i, j, c1, c2. split; [done|]. split; [done|]. split; [done|].
    split; [congruence|].
    unfold calculate_chunk_ids. rewrite read_ids_loop, !lookup_zip_with.
    rewrite !list_lookup_fmap, E1, E2, Hzi, Hzj. simpl.
    split; [done|]. by rewrite Hj, Hi.
Qed.

Lemma interleaved_pages_collide_witness :
  grouped (map page_id_of sample_interleaved) = false
  ∧ ∃ (i j : nat) (c1 c2 : Document),
      i ≠ j
      ∧ sample_interleaved !! i = Some c1 ∧ sample_interleaved !! j = Some c2
      ∧ page_id_of c1 = page_id_of c2
      ∧ map read_id (calculate_chunk_ids sample_interleaved) !! i
        = Some (Some (PyStr (id_string (page_id_of c1) 0)))
      ∧ map read_id (calculate_chunk_ids sample_interleaved) !! j
        = Some (Some (PyStr (id_string (page_id_of c1) 0))).
Proof.
  split; [reflexivity|].
  exact (proj2 interleaved_pages_collide sample_interleaved eq_refl).
Defined.

(** X1: the ids of a list of chunks are pairwise different exactly when
    the chunks of every page identifier [source:page] stand together:
    as soon as a page identifier comes back after another one, two
    chunks get the same id. *)
Theorem ids_unique_iff_grouped (chunks : list Document) :
  NoDup (map read_id (calculate_chunk_ids chunks))
  ↔ grouped (map page_id_of chunks) = true.
Proof.
  split; [|apply page_id_grouped_unique].
  intros Hnd. destruct (grouped (map page_id_of chunks)) eqn:Hg; [done|].
  destruct (ungrouped_two_zeros _ Hg) as (i & j & k & Hij & Hi & Hzi & Hj & Hzj).
  destruct Hij. apply (NoDup_lookup _ i j (Some (PyStr (id_string k 0))) Hnd);
    unfold calculate_chunk_ids; rewrite read_ids_loop, lookup_zip_with.
  - by rewrite Hi, Hzi.
  - by rewrite Hj, Hzj.
Qed.

(** X2: whatever the order of the chunks, two chunks with the loader's
    metadata that get the same id have the same source and the same
    page: a collision never joins two files or two pages. *)
Theorem same_id_same_page (chunks : list Document) (i j : nat)
    (ci cj : Document) :
  chunks !! i = Some ci → chunks !! j = Some cj →
  loader_metadata ci = true → loader_metadata cj = true →
  map read_id (calculate_chunk_ids chunks) !! i
  = map read_id (calculate_chunk_ids chunks) !! j →
  source_page ci = source_page cj.
Proof.
  intros Hi Hj Hli Hlj Hid.
  destruct (read_ids_lookup _ _ _ Hi) as (mi & _ & _ & Ei).
  destruct (read_ids_lookup _ _ _ Hj) as (mj & _ & _ & Ej).
  rewrite Ei, Ej in Hid. injection Hid as Hid.
  apply id_string_inj in Hid as [Hp _].
  by apply loader_page_id_inj.
Qed.

Lemma same_id_same_page_witness :
  sample_interleaved !! 0%nat = Some (pdf_chunk "a.pdf" 0 "t0")
  ∧ sample_interleaved !! 2%nat = Some (pdf_chunk "a.pdf" 0 "t2")
  ∧ map read_id (calculate_chunk_ids sample_interleaved) !! 0%nat
    = map read_id (calculate_chunk_ids sample_interleaved) !! 2%nat
  ∧ source_page (pdf_chunk "a.pdf" 0 "t0")
    = source_page (pdf_chunk "a.pdf" 0 "t2").
Proof.
  split; [reflexivity|]. split; [reflexivity|]. split; [reflexivity|].
  exact (same_id_same_page sample_interleaved 0 2
           (pdf_chunk "a.pdf" 0 "t0") (pdf_chunk "a.pdf" 0 "t2")
           eq_refl eq_refl eq_refl eq_refl eq_refl).
Defined.

(** X3: the ids depend on the sources and the pages of the chunks
    alone, in their order: two lists that agree on them get the same
    ids, whatever their texts, their other metadata and the ids they
    carried before. *)
Theorem ids_depend_on_source_page (chunks1 chunks2 : list Document) :
  map source_page chunks1 = map source_page chunks2 →
  map read_id (calculate_chunk_ids chunks1)
  = map read_id (calculate_chunk_ids chunks2).
Proof.
  intros H%page_ids_of_source_pages. unfold calculate_chunk_ids.
  by rewrite !read_ids_loop, H.
Qed.

Lemma ids_depend_on_source_page_witness :
  map source_page sample_grouped = map source_page sample_grouped_edited
  ∧ sample_grouped ≠ sample_grouped_edited
  ∧ map read_id (calculate_chunk_ids sample_grouped)
    = map read_id (calculate_chunk_ids sample_grouped_edited).
Proof.
  split; [reflexivity|]. split; [discriminate|].
  exact (ids_depend_on_source_page sample_grouped sample_grouped_edited
           eq_refl).
Defined.

(** X4: assigning ids a second time changes nothing: the chunks
    returned by [calculate_chunk_ids] are left as they are by another
    call, the ids of the first call being overwritten by equal ones. *)
Theorem calculate_chunk_ids_idempotent (chunks : list Document) :
  calculate_chunk_ids (calculate_chunk_ids chunks)
  = calculate_chunk_ids chunks.
Proof.
  unfold calculate_chunk_ids. rewrite !loop_is_tag.
  set (ms := indices None 0 (map page_id_of chunks)).
  assert (Hlen : length ms = length chunks)
    by (subst ms; by rewrite length_indices, length_map).
  rewrite (page_ids_of_tagged _ _ Hlen). fold ms.
  clearbody ms. revert ms Hlen.
  induction chunks as [|c chunks IH]; intros [|m ms] Hlen;
    try discriminate; [done|].
  cbn [zip_with]. rewrite tag_tag, IH by (by injection Hlen). done.
Qed.

(** X5: the chunks that come later do not change the ids of those that
    come before: the result for [chunks1 ++ chunks2] starts with the
    result for [chunks1] and goes on with one chunk for each chunk of
    [chunks2]. *)
Theorem calculate_chunk_ids_prefix (chunks1 chunks2 : list Document) :
  take (length chunks1) (calculate_chunk_ids (chunks1 ++ chunks2))
  = calculate_chunk_ids chunks1
  ∧ length (drop (length chunks1) (calculate_chunk_ids (chunks1 ++ chunks2)))
    = length chunks2.
Proof.
  unfold calculate_chunk_ids.
  destruct (loop_app None 0 chunks1 chunks2) as (last' & n' & -> & _).
  split.
  - by rewrite take_app_length' by (by rewrite loop_length).
  - rewrite drop_app_length' by (by rewrite loop_length). apply loop_length.
Qed.

(** X6: from one chunk to the next the index goes up by one when the
    page identifier [source:page] is the same and back to 0 when it is
    not. *)
Theorem chunk_index_step (chunks : list Document) (i : nat)
    (c1 c2 : Document) (m : Z) :
  chunks !! i = Some c1 → chunks !! S i = Some c2 →
  map read_id (calculate_chunk_ids chunks) !! i
  = Some (Some (PyStr (id_string (page_id_of c1) m))) →
  map read_id (calculate_chunk_ids chunks) !! S i
  = Some (Some (PyStr (id_string (page_id_of c2)
       (if decide (page_id_of c2 = page_id_of c1) then m + 1 else 0)))).
Proof.
  intros H1 H2 Hid.
  destruct (read_ids_lookup _ _ _ H1) as (m1 & _ & Hm1 & E1).
  rewrite E1 in Hid. injection Hid as Hid.
  apply id_string_inj in Hid as [_ ->].
  unfold calculate_chunk_ids. rewrite read_ids_loop.
  assert (Hk1 : map page_id_of chunks !! i = Some (page_id_of c1))
    by (by rewrite list_lookup_fmap, H1).
  assert (Hk2 : map page_id_of chunks !! S i = Some (page_id_of c2))
    by (by rewrite list_lookup_fmap, H2).
  pose proof (indices_next None 0 _ i _ _ m Hk1 Hk2 Hm1) as Hn.
  by rewrite lookup_zip_with, Hk2, Hn.
Qed.

Lemma chunk_index_step_witness :
  map read_id (calculate_chunk_ids sample_grouped) !! 0%nat
  = Some (Some (PyStr (id_string "a.pdf:0" 0)))
  ∧ map read_id (calculate_chunk_ids sample_grouped) !! 1%nat
    = Some (Some (PyStr "a.pdf:0:1")).
Proof.
  split; [reflexivity|].
  exact (chunk_index_step sample_grouped 0
           (pdf_chunk "a.pdf" 0 "t0") (pdf_chunk "a.pdf" 0 "t1") 0
           eq_refl eq_refl eq_refl).
Defined.

(** * Further properties of [add_to_db] *)

Section MoreStore.

Implicit Types (w : World) (chunks docs : list Document)
  (store : gmap pyval Document).

Lemma omap_read_id_Some docs :
  Forall (λ c, is_Some (read_id c)) docs →
  map Some (omap read_id docs) = map read_id docs.
Proof.
  induction 1 as [|c docs [i Hi] _ IH]; [done|].
  cbn [omap list_omap map]. rewrite Hi. cbn. by rewrite IH.
Qed.

Lemma assigned_ids_Some chunks :
  map Some (assigned_ids chunks) = map read_id (calculate_chunk_ids chunks).
Proof. apply omap_read_id_Some, calculate_chunk_ids_have_id. Qed.

Lemma elem_of_assigned_ids chunks i :
  i ∈ assigned_ids chunks
  ↔ Some i ∈ map read_id (calculate_chunk_ids chunks).
Proof.
  rewrite <- assigned_ids_Some. split.
  - apply list_elem_of_fmap_2.
  - intros (i' & [= <-] & ?)%list_elem_of_fmap. done.
Qed.

Lemma ids_of_omap docs w :
  Forall (λ c, is_Some (read_id c)) docs →
  ids_of docs w = (Returned (omap read_id docs), w).
Proof.
  induction 1 as [|c docs [i Hi] _ IH]; [done|].
  cbn [ids_of omap list_omap]. unfold bind, dict_item.
  rewrite Hi. unfold read_id in Hi. rewrite Hi. cbn [ret]. by rewrite IH.
Qed.

Lemma new_chunks_have_id existing chunks :
  Forall (λ c, ∃ i, read_id c = Some i ∧ i ∉ existing)
    (new_chunks_for existing chunks).
Proof.
  apply Forall_forall. intros c Hc.
  apply list_elem_of_In, filter_In in Hc as [_ Hnew].
  unfold is_new in Hnew. destruct (read_id c) as [i|]; [|done].
  exists i. split; [done|]. by apply bool_decide_eq_true in Hnew.
Qed.

Lemma upsert_cons store d docs i :
  read_id d = Some i → upsert store (d :: docs) = upsert (<[i := d]> store) docs.
Proof. intros Hi. unfold upsert. cbn [omap list_omap]. by rewrite Hi. Qed.

Lemma upsert_lookup_other store docs i :
  Forall (λ c, is_Some (read_id c)) docs →
  i ∉ omap read_id docs →
  upsert store docs !! i = store !! i.
Proof.
  intros Hid. revert store.
  induction Hid as [|d docs [j Hj] _ IH]; intros store Hnot; [done|].
  rewrite (upsert_cons _ _ _ _ Hj). cbn [omap list_omap] in Hnot.
  rewrite Hj in Hnot. apply not_elem_of_cons in Hnot as [Hne Hnot].
  rewrite IH by done. by apply lookup_insert_ne.
Qed.

Lemma dom_upsert_ids store docs :
  Forall (λ c, is_Some (read_id c)) docs →
  dom (upsert store docs) = dom store ∪ list_to_set (omap read_id docs).
Proof.
  intros Hid. revert store.
  induction Hid as [|d docs [j Hj] _ IH]; intros store.
  - unfold upsert. cbn. by rewrite (right_id_L ∅ (∪)).
  - rewrite (upsert_cons _ _ _ _ Hj), IH, dom_insert_L.
    cbn [omap list_omap]. rewrite Hj. cbn [list_to_set].
    by rewrite (comm_L (∪) {[j]} (dom store)), <- (assoc_L (∪)).
Qed.

Lemma upsert_keyed store docs :
  Forall (λ c, is_Some (read_id c)) docs →
  keyed_by_id store → keyed_by_id (upsert store docs).
Proof.
  intros Hid. revert store.
  induction Hid as [|d docs [j Hj] _ IH]; intros store Hk; [done|].
  rewrite (upsert_cons _ _ _ _ Hj). apply IH.
  intros i d' Hl. destruct (decide (j = i)) as [->|Hne].
  - rewrite lookup_insert_eq in Hl. by injection Hl as <-.
  - rewrite lookup_insert_ne in Hl by done. by apply Hk.
Qed.

Lemma NoDup_omap_filter {A B} (f : A → option B) (P : A → bool) (l : list A) :
  NoDup (omap f l) → NoDup (omap f (List.filter P l)).
Proof.
  assert (Hin : ∀ (y : B) l', y ∈ omap f (List.filter P l') → y ∈ omap f l').
  { intros y l' (x & Hx & Hy)%list_elem_of_omap.
    apply list_elem_of_In, filter_In in Hx as [Hx _].
    apply list_elem_of_omap. exists x. split; [by apply list_elem_of_In|done]. }
  induction l as [|x l IH]; [done|].
  cbn [omap list_omap List.filter].
  destruct (f x) as [y|] eqn:Hy, (P x); cbn [omap list_omap]; rewrite ?Hy.
  - intros [Hnot Hnd]%NoDup_cons. apply NoDup_cons. split; [|by apply IH].
    intros Hy'. by apply Hnot, Hin.
  - intros [_ Hnd]%NoDup_cons. by apply IH.
  - apply IH.
  - apply IH.
Qed.

(** Chunks whose page identifiers stand together get different ids. *)
Lemma grouped_assigned_NoDup chunks :
  grouped (map page_id_of chunks) = true → NoDup (assigned_ids chunks).
Proof.
  intros Hg%page_id_grouped_unique. rewrite <- assigned_ids_Some in Hg.
  by apply NoDup_fmap in Hg; [|apply _].
Qed.

(** Chunks whose page identifiers do not stand together do not. *)
Lemma ungrouped_assigned_dup chunks :
  grouped (map page_id_of chunks) = false → ¬ NoDup (assigned_ids chunks).
Proof.
  intros Hg Hnd.
  destruct (ungrouped_two_zeros _ Hg) as (i & j & k & Hij & Hi & Hzi & Hj & Hzj).
  apply (NoDup_fmap_2 Some) in Hnd. rewrite assigned_ids_Some in Hnd.
  destruct Hij. apply (NoDup_lookup _ i j (Some (PyStr (id_string k 0))) Hnd);
    unfold calculate_chunk_ids; rewrite read_ids_loop, lookup_zip_with.
  - by rewrite Hi, Hzi.
  - by rewrite Hj, Hzj.
Qed.

(** What [add_to_db] does, in one equation. *)
Lemma add_to_db_exact chunks w :
  add_to_db chunks w
  = (add_outcome (new_chunks_for (dom (store_of w)) chunks),
     {| chroma_dir :=
          Some (add_store (store_of w)
                  (new_chunks_for (dom (store_of w)) chunks));
        console :=
          console w ++ [report_line (new_chunks_for (dom (store_of w)) chunks)];
        connections := S (connections w) |}).
Proof.
  pose proof (calculate_chunk_ids_have_id chunks) as Hid.
  pose proof (new_chunks_have_id (dom (store_of w)) chunks) as Hnew.
  unfold add_to_db, bind, Chroma, mkdir_chroma_dir, db_get_ids.
  cbn [chroma_dir console connections default from_option id].
  rewrite existing_is_dom. fold (default ∅ (chroma_dir w)). fold (store_of w).
  rewrite (not_in_existing_filter _ _ _ Hid).
  fold (new_chunks_for (dom (store_of w)) chunks).
  unfold add_outcome, add_store.
  destruct (new_chunks_for (dom (store_of w)) chunks) as [|c new] eqn:E.
  - rewrite decide_True by constructor. done.
  - unfold print at 1. cbn [chroma_dir console connections].
    rewrite ids_of_omap.
    2:{ eapply Forall_impl; [exact Hnew|]. intros x (i & -> & _). by eexists. }
    unfold add_documents, persist, raise.
    cbn [chroma_dir console connections default from_option id].
    by destruct (decide (NoDup (omap read_id (c :: new)))).
Qed.

Lemma new_chunks_all chunks existing :
  (∀ i, i ∈ assigned_ids chunks → i ∉ existing) →
  new_chunks_for existing chunks = calculate_chunk_ids chunks.
Proof.
  intros Hfresh. unfold new_chunks_for.
  pose proof (calculate_chunk_ids_have_id chunks) as Hid.
  assert (Hin : ∀ c, c ∈ calculate_chunk_ids chunks → is_new existing c = true).
  { intros c Hc. rewrite Forall_forall in Hid.
    destruct (Hid c Hc) as [i Hi]. unfold is_new. rewrite Hi.
    apply bool_decide_eq_true, Hfresh, elem_of_assigned_ids.
    rewrite <- Hi. by apply list_elem_of_fmap_2. }
  clear Hid. induction (calculate_chunk_ids chunks) as [|c cs IH]; [done|].
  cbn [List.filter]. rewrite Hin by apply list_elem_of_here.
  f_equal. apply IH. intros c' Hc'. apply Hin. by apply list_elem_of_further.
Qed.

Lemma new_chunks_none_iff chunks existing :
  new_chunks_for existing chunks = []
  ↔ ∀ i, i ∈ assigned_ids chunks → i ∈ existing.
Proof.
  pose proof (calculate_chunk_ids_have_id chunks) as Hid.
  rewrite Forall_forall in Hid. split.
  - intros Hnil i (c & Hc & Hin)%elem_of_assigned_ids%list_elem_of_fmap_1.
    destruct (decide (i ∈ existing)) as [|Hnot]; [done|].
    assert (Hc' : c ∈ new_chunks_for existing chunks).
    { apply list_elem_of_In, filter_In. split; [by apply list_elem_of_In|].
      unfold is_new. rewrite <- Hc. by apply bool_decide_eq_true. }
    rewrite Hnil in Hc'. by apply elem_of_nil in Hc'.
  - intros Hall. destruct (new_chunks_for existing chunks) as [|c new] eqn:E;
      [done|].
    assert (Hc : c ∈ new_chunks_for existing chunks)
      by (rewrite E; apply list_elem_of_here).
    apply list_elem_of_In, filter_In in Hc as [Hc Hnew].
    unfold is_new in Hnew. destruct (read_id c) as [i|] eqn:Hi; [|done].
    apply bool_decide_eq_true in Hnew. destruct Hnew. apply Hall.
    apply elem_of_assigned_ids. rewrite <- Hi.
    by apply list_elem_of_fmap_2, list_elem_of_In.
Qed.

(** The keys of the collection after [add_to_db]. *)
Lemma dom_after_add_to_db chunks store :
  dom (upsert store (new_chunks_for (dom store) chunks))
  = dom store ∪ list_to_set (assigned_ids chunks).
Proof.
  pose proof (new_chunks_have_id (dom store) chunks) as Hnew.
  rewrite dom_upsert_ids.
  2:{ eapply Forall_impl; [exact Hnew|]. intros x (i & -> & _). by eexists. }
  apply set_eq. intros i. rewrite !elem_of_union, !elem_of_list_to_set.
  split.
  - intros [?|Hi]; [by left|right].
    apply list_elem_of_omap in Hi as (c & Hc & Hi).
    apply list_elem_of_In, filter_In in Hc as [Hc _].
    apply list_elem_of_omap. exists c. split; [by apply list_elem_of_In|done].
  - intros [?|Hi]; [by left|].
    destruct (decide (i ∈ dom store)) as [|Hnot]; [by left|right].
    apply list_elem_of_omap in Hi as (c & Hc & Hi).
    apply list_elem_of_omap. exists c. split; [|done].
    apply list_elem_of_In, filter_In. split; [by apply list_elem_of_In|].
    unfold is_new. rewrite Hi. by apply bool_decide_eq_true.
Qed.

(** [add_to_db] leaves what the collection held before as it was. *)
Lemma kept_after_add_to_db chunks store i d :
  store !! i = Some d →
  upsert store (new_chunks_for (dom store) chunks) !! i = Some d.
Proof.
  intros Hi. pose proof (new_chunks_have_id (dom store) chunks) as Hnew.
  rewrite upsert_lookup_other; [done| |].
  - eapply Forall_impl; [exact Hnew|]. intros x (j & -> & _). by eexists.
  - intros (c & Hc & Hj)%list_elem_of_omap.
    rewrite Forall_forall in Hnew. destruct (Hnew c Hc) as (j & Hj' & Hnot).
    rewrite Hj in Hj'. injection Hj' as <-.
    apply Hnot, elem_of_dom. by eexists.
Qed.

(** The same for the collection [add_to_db] leaves. *)
Lemma add_store_kept chunks store i d :
  store !! i = Some d →
  add_store store (new_chunks_for (dom store) chunks) !! i = Some d.
Proof.
  intros Hi. unfold add_store. destruct (decide _); [|done].
  by apply kept_after_add_to_db.
Qed.

Lemma add_store_keyed chunks store :
  keyed_by_id store →
  keyed_by_id (add_store store (new_chunks_for (dom store) chunks)).
Proof.
  intros Hk. unfold add_store. destruct (decide _); [|done].
  apply upsert_keyed; [|done].
  eapply Forall_impl; [apply new_chunks_have_id|].
  intros x (i & -> & _). by eexists.
Qed.

Lemma add_store_none store : add_store store [] = store.
Proof. unfold add_store. by rewrite decide_True by constructor. Qed.

(** How [add_to_db] ends. *)
Lemma add_outcome_cases new_chunks :
  (new_chunks = [] ∧ add_outcome new_chunks = Returned tt)
  ∨ (new_chunks ≠ []
     ∧ (add_outcome new_chunks = Raised "AttributeError"
        ∨ add_outcome new_chunks = Raised "DuplicateIDError")).
Proof.
  destruct new_chunks as [|c new]; [by left|right].
  split; [done|]. unfold add_outcome. destruct (decide _); auto.
Qed.

(** The ids in the store after [add_to_db] of chunks whose page
    identifiers stand together. *)
Lemma add_to_db_keys_aux chunks w :
  grouped (map page_id_of chunks) = true →
  dom (store_of (add_to_db chunks w).2)
  = dom (store_of w) ∪ list_to_set (assigned_ids chunks).
Proof.
  intros Hg%grouped_assigned_NoDup.
  rewrite add_to_db_exact. unfold store_of at 1.
  cbn [snd chroma_dir default from_option id].
  unfold add_store. rewrite decide_True by (by apply NoDup_omap_filter).
  apply dom_after_add_to_db.
Qed.

End MoreStore.


(** X9: for chunks whose page identifiers stand together, as the
    loader and the splitter deliver them, the ids in the store after
    [add_to_db] are those that were there before and those of the
    chunks, and no other, whether the call returns or ends in the
    error of [db.persist()]. *)
Theorem add_to_db_keys (chunks : list Document) (w : World) :
  grouped (map page_id_of chunks) = true →
  dom (store_of (add_to_db chunks w).2)
  = dom (store_of w) ∪ list_to_set (assigned_ids chunks).
Proof.
  intros Hg%grouped_assigned_NoDup.
  rewrite add_to_db_exact. unfold store_of at 1.
  cbn [snd chroma_dir default from_option id].
  unfold add_store. rewrite decide_True by (by apply NoDup_omap_filter).
  apply dom_after_add_to_db.
Qed.

Lemma add_to_db_keys_witness :
  grouped (map page_id_of sample_grouped) = true
  ∧ (add_to_db sample_grouped sample_world_fresh).1 = Raised "AttributeError"
  ∧ dom (store_of (add_to_db sample_grouped sample_world_fresh).2)
    = dom (store_of sample_world_fresh)
      ∪ list_to_set (assigned_ids sample_grouped).
Proof.
  split; [reflexivity|]. split; [by vm_compute|].
  exact (add_to_db_keys sample_grouped sample_world_fresh eq_refl).
Defined.

(** X10: [add_to_db] never replaces or removes what the store holds: a
    document found under an id before the call is found under it
    after the call, also when a chunk with that id and another text is
    passed. *)
Theorem add_to_db_keeps_entries (chunks : list Document) (w : World)
    (i : pyval) (d : Document) :
  store_of w !! i = Some d →
  store_of (add_to_db chunks w).2 !! i = Some d.
Proof.
  intros Hi. rewrite add_to_db_exact. unfold store_of at 1.
  cbn [snd chroma_dir default from_option id].
  by apply add_store_kept.
Qed.

Lemma add_to_db_keeps_entries_witness :
  store_of sample_world_ingested !! PyStr "a.pdf:0:0"
  = Some (tag (pdf_chunk "a.pdf" 0 "t0") 0)
  ∧ store_of (add_to_db sample_grouped_edited sample_world_ingested).2
      !! PyStr "a.pdf:0:0"
    = Some (tag (pdf_chunk "a.pdf" 0 "t0") 0).
Proof.
  assert (H : store_of sample_world_ingested !! PyStr "a.pdf:0:0"
              = Some (tag (pdf_chunk "a.pdf" 0 "t0") 0)) by (by vm_compute).
  split; [exact H|].
  exact (add_to_db_keeps_entries sample_grouped_edited sample_world_ingested
           _ _ H).
Defined.

(** X11: the comparison with the store does not tell apart chunks that
    got the same id in this call.  When no id of the chunks is in the
    store and a page identifier comes back after another one, every
    chunk is kept for insertion and counted in the line printed, the
    client refuses the batch and [add_to_db] raises
    [DuplicateIDError]: nothing is stored, not even the chunks whose
    ids are unique. *)
Theorem colliding_batch_refused (chunks : list Document) (w : World) :
  (∀ i, i ∈ assigned_ids chunks → i ∉ dom (store_of w)) →
  grouped (map page_id_of chunks) = false →
  add_to_db chunks w
  = (Raised "DuplicateIDError",
     {| chroma_dir := Some (store_of w);
        console := console w
          ++ [ "👉 Adding " +:+ str_int (Z.of_nat (length chunks))
               +:+ " new chunks" ];
        connections := S (connections w) |}).
Proof.
  intros Hfresh Hdup%ungrouped_assigned_dup.
  rewrite add_to_db_exact, (new_chunks_all _ _ Hfresh).
  unfold add_outcome, add_store, report_line. fold (assigned_ids chunks).
  rewrite !decide_False by done.
  pose proof (loop_length None 0 chunks) as Hlen.
  fold (calculate_chunk_ids chunks) in Hlen.
  destruct (calculate_chunk_ids chunks) as [|c cs] eqn:E.
  - destruct Hdup. unfold assigned_ids. rewrite E. constructor.
  - by rewrite Hlen.
Qed.

Lemma colliding_batch_refused_witness :
  (∀ i, i ∈ assigned_ids sample_interleaved →
        i ∉ dom (store_of sample_world_fresh))
  ∧ grouped (map page_id_of sample_interleaved) = false
  ∧ add_to_db sample_interleaved sample_world_fresh
    = (Raised "DuplicateIDError",
       {| chroma_dir := Some ∅;
          console := ["👉 Adding 3 new chunks"];
          connections := 1 |}).
Proof.
  assert (H : ∀ i, i ∈ assigned_ids sample_interleaved →
                   i ∉ dom (store_of sample_world_fresh)).
  { intros i _. unfold store_of. cbn. by rewrite dom_empty_L. }
  split; [exact H|]. split; [reflexivity|].
  exact (colliding_batch_refused sample_interleaved sample_world_fresh
           H eq_refl).
Defined.

(** X12: [add_to_db] keeps the store keyed by id: when every document
    of the store is found under the id it carries, this is so after
    the call too. *)
Theorem add_to_db_keyed_by_id (chunks : list Document) (w : World) :
  keyed_by_id (store_of w) →
  keyed_by_id (store_of (add_to_db chunks w).2).
Proof.
  intros Hk. rewrite add_to_db_exact. unfold store_of at 1.
  cbn [snd chroma_dir default from_option id].
  by apply add_store_keyed.
Qed.

Lemma add_to_db_keyed_by_id_witness :
  keyed_by_id (store_of sample_world_fresh)
  ∧ keyed_by_id (store_of (add_to_db sample_grouped sample_world_fresh).2).
Proof.
  assert (H : keyed_by_id (store_of sample_world_fresh)).
  { intros i d Hi. unfold store_of in Hi. cbn in Hi.
    by rewrite lookup_empty in Hi. }
  split; [exact H|].
  exact (add_to_db_keyed_by_id sample_grouped sample_world_fresh H).
Defined.

(** X18: a second call makes up for the first.  For chunks whose page
    identifiers stand together, the first call of [add_to_db] either
    returns or ends in the [AttributeError] of [db.persist()], which
    comes after the chunks are stored; a second call on the same
    chunks then finds every id in the store, inserts nothing, says so
    and returns. *)
Theorem add_to_db_rerun (chunks : list Document) (w : World) :
  grouped (map page_id_of chunks) = true →
  let w1 := (add_to_db chunks w).2 in
  ((add_to_db chunks w).1 = Returned tt
   ∨ (add_to_db chunks w).1 = Raised "AttributeError")
  ∧ add_to_db chunks w1
    = (Returned tt,
       {| chroma_dir := Some (store_of w1);
          console := console w1 ++ ["✅ All documents already in DB"];
          connections := S (connections w1) |}).
Proof.
  intros Hg w1. pose proof (add_to_db_keys_aux chunks w Hg) as Hdom.
  fold w1 in Hdom. split.
  - rewrite add_to_db_exact. cbn [fst]. unfold add_outcome.
    destruct (new_chunks_for _ _) as [|c new] eqn:E; [by left|right].
    rewrite decide_True; [done|]. rewrite <- E.
    by apply NoDup_omap_filter, grouped_assigned_NoDup.
  - apply add_to_db_all_known. intros i Hi%elem_of_assigned_ids.
    fold (store_of w1). rewrite Hdom. apply elem_of_union. right.
    by apply elem_of_list_to_set.
Qed.

Lemma add_to_db_rerun_witness :
  grouped (map page_id_of sample_grouped) = true
  ∧ (add_to_db sample_grouped sample_world_fresh).1 = Raised "AttributeError"
  ∧ (add_to_db sample_grouped
       (add_to_db sample_grouped sample_world_fresh).2).1
    = Returned tt.
Proof.
  split; [reflexivity|]. split; [by vm_compute|].
  rewrite (proj2 (add_to_db_rerun sample_grouped sample_world_fresh eq_refl)).
  reflexivity.
Defined.

(** * Further properties of [main] *)

Section MoreMain.

Variable env : Env.

Implicit Types (w : World) (args : Args) (files pre post : list string).

Lemma for_each_print files (line : string → string) w :
  for_each files (λ p, print (line p)) w
  = (Returned tt,
     {| chroma_dir := chroma_dir w;
        console := console w ++ map line files;
        connections := connections w |}).
Proof.
  revert w. induction files as [|p files IH]; intros w.
  - cbn [for_each map ret]. rewrite app_nil_r. by destruct w.
  - cbn [for_each map]. unfold bind, print at 1. rewrite IH.
    cbn [chroma_dir console connections]. by rewrite <- app_assoc.
Qed.

(** One turn of the loop over the files. *)
Lemma ingest_run p w :
  ingest env p w
  = let w0 := {| chroma_dir := chroma_dir w;
                 console := console w
                   ++ [newline +:+ "📄 Ingesting " +:+ path_name env p];
                 connections := connections w |} in
    match chunks_of env p with
    | Returned chunks => add_to_db chunks w0
    | Raised e => (Raised e, w0)
    end.
Proof.
  unfold ingest, chunks_of, bind, print, lift.
  destruct (load_documents env p) as [docs|e]; [|done].
  by destruct (split_documents env docs).
Qed.

(** One turn of the loop, with what [add_to_db] does in it. *)
Lemma ingest_exact p w :
  ingest env p w
  = match chunks_of env p with
    | Returned chunks =>
        (add_outcome (new_chunks_for (dom (store_of w)) chunks),
         {| chroma_dir :=
              Some (add_store (store_of w)
                      (new_chunks_for (dom (store_of w)) chunks));
            console :=
              (console w ++ [newline +:+ "📄 Ingesting " +:+ path_name env p])
              ++ [report_line (new_chunks_for (dom (store_of w)) chunks)];
            connections := S (connections w) |})
    | Raised e =>
        (Raised e,
         {| chroma_dir := chroma_dir w;
            console := console w
              ++ [newline +:+ "📄 Ingesting " +:+ path_name env p];
            connections := connections w |})
    end.
Proof.
  rewrite ingest_run. cbn zeta.
  destruct (chunks_of env p) as [chunks|e]; [|done].
  by rewrite add_to_db_exact.
Qed.

(** The loop keeps what the store held. *)
Lemma for_each_ingest_keeps files w i d :
  store_of w !! i = Some d →
  store_of (for_each files (ingest env) w).2 !! i = Some d.
Proof.
  revert w. induction files as [|p files IH]; intros w Hi; [done|].
  cbn [for_each]. unfold bind. rewrite ingest_exact.
  destruct (chunks_of env p) as [chunks|e]; [|done].
  destruct (add_outcome _).
  - apply IH. unfold store_of at 1. cbn [chroma_dir default from_option id].
    by apply add_store_kept.
  - unfold store_of at 1. cbn [snd chroma_dir default from_option id].
    by apply add_store_kept.
Qed.

(** The loop over files that bring nothing new returns and leaves the
    store as it was. *)
Lemma for_each_ingest_all_known files w :
  all_known env (store_of w) files →
  ∃ w',
    for_each files (ingest env) w = (Returned tt, w')
    ∧ store_of w' = store_of w
    ∧ connections w' = (connections w + length files)%nat.
Proof.
  revert w. induction files as [|p files IH]; intros w Hknown.
  - exists w. cbn. split; [done|]. split; [done|lia].
  - apply Forall_cons in Hknown as [(chunks & Hp & Hids) Hknown].
    cbn [for_each]. unfold bind. rewrite ingest_exact, Hp.
    rewrite (proj2 (new_chunks_none_iff chunks (dom (store_of w))) Hids).
    cbn [add_outcome]. rewrite add_store_none.
    match goal with |- context [for_each files _ ?w1] =>
      destruct (IH w1) as (w' & -> & Hs & Hc) end.
    { done. }
    exists w'. split; [done|]. split; [done|].
    cbn [connections length] in Hc |- *. lia.
Qed.

(** A loop that returns has found nothing new. *)
Lemma for_each_ingest_returned files w w' :
  for_each files (ingest env) w = (Returned tt, w') →
  all_known env (store_of w) files ∧ store_of w' = store_of w.
Proof.
  revert w. induction files as [|p files IH]; intros w.
  - cbn. intros [= <-]. split; [constructor|done].
  - cbn [for_each]. unfold bind. rewrite ingest_exact.
    destruct (chunks_of env p) as [chunks|e] eqn:Hp; [|discriminate].
    destruct (add_outcome_cases (new_chunks_for (dom (store_of w)) chunks))
      as [[Hnone ->]|[_ [-> | ->]]]; [|discriminate..].
    rewrite Hnone, add_store_none. intros [Hknown Hs]%IH.
    split; [|done]. apply Forall_cons. split; [|done].
    exists chunks. split; [done|]. by apply new_chunks_none_iff.
Qed.

(** The loop stops at the first file that brings a new chunk. *)
Lemma for_each_ingest_stop_new pre p post chunks w :
  all_known env (store_of w) pre →
  chunks_of env p = Returned chunks →
  new_chunks_for (dom (store_of w)) chunks ≠ [] →
  ∃ w',
    for_each (pre ++ p :: post) (ingest env) w
    = (add_outcome (new_chunks_for (dom (store_of w)) chunks), w')
    ∧ connections w' = (connections w + length pre + 1)%nat
    ∧ store_of w'
      = add_store (store_of w) (new_chunks_for (dom (store_of w)) chunks).
Proof.
  revert w. induction pre as [|q pre IH]; intros w Hknown Hp Hnew.
  - cbn [app for_each]. unfold bind. rewrite ingest_exact, Hp.
    destruct (add_outcome_cases (new_chunks_for (dom (store_of w)) chunks))
      as [[? _]|[_ [E | E]]]; [done|..]; rewrite E;
      (eexists; split; [done|]; split; [cbn; lia|done]).
  - apply Forall_cons in Hknown as [(cs & Hq & Hids) Hknown].
    cbn [app for_each]. unfold bind. rewrite ingest_exact, Hq.
    rewrite (proj2 (new_chunks_none_iff cs (dom (store_of w))) Hids).
    cbn [add_outcome]. rewrite add_store_none.
    match goal with |- context [for_each _ _ ?w1] =>
      destruct (IH w1) as (w' & -> & Hc & Hs); [done|done|done|] end.
    exists w'. split; [done|]. split; [|done].
    cbn [connections length] in Hc |- *. lia.
Qed.

(** The loop passes on the error of the loader or the splitter. *)
Lemma for_each_ingest_stop_error pre p post e w :
  all_known env (store_of w) pre →
  chunks_of env p = Raised e →
  ∃ w',
    for_each (pre ++ p :: post) (ingest env) w = (Raised e, w')
    ∧ connections w' = (connections w + length pre)%nat
    ∧ store_of w' = store_of w.
Proof.
  revert w. induction pre as [|q pre IH]; intros w Hknown Hp.
  - cbn [app for_each]. unfold bind. rewrite ingest_exact, Hp.
    eexists. split; [done|]. split; [cbn; lia|done].
  - apply Forall_cons in Hknown as [(cs & Hq & Hids) Hknown].
    cbn [app for_each]. unfold bind. rewrite ingest_exact, Hq.
    rewrite (proj2 (new_chunks_none_iff cs (dom (store_of w))) Hids).
    cbn [add_outcome]. rewrite add_store_none.
    match goal with |- context [for_each _ _ ?w1] =>
      destruct (IH w1) as (w' & -> & Hc & Hs); [done|done|] end.
    exists w'. split; [done|]. split; [|done].
    cbn [connections length] in Hc |- *. lia.
Qed.

(** [main] without the reset flag, up to the loop over the files. *)
Lemma main_no_reset_unfold d w :
  main env (mkArgs false d) w
  = match pdf_files_of env (mkArgs false d) with
    | [] =>
        (Returned tt,
         {| chroma_dir := chroma_dir w;
            console := console w
              ++ [ (if is_dir env (data_path env d)
                    then "❌ No PDF files found in: "
                    else "❌ Directory not found: ") +:+ data_path env d ];
            connections := connections w |})
    | p :: rest =>
        for_each (p :: rest) (ingest env)
          {| chroma_dir := chroma_dir w;
             console := (console w
               ++ [ "📂 Found " +:+ str_int (Z.of_nat (length (p :: rest)))
                    +:+ " PDF(s) in " +:+ data_path env d +:+ ":" ])
               ++ map (λ q, "  • " +:+ path_name env q) (p :: rest);
             connections := connections w |}
    end.
Proof.
  unfold main, pdf_files_of. cbn [reset dir]. unfold bind at 1. cbn [ret].
  destruct (is_dir env (data_path env d)); cbn [negb]; [|done].
  destruct (glob_pdf env (data_path env d)) as [|p rest]; [done|].
  unfold bind at 1. unfold print at 1. unfold bind at 1.
  by rewrite for_each_print.
Qed.

(** [main] up to the loop over the files, with either flag. *)
Lemma main_no_files args w :
  pdf_files_of env args = [] →
  ∃ w',
    main env args w = (Returned tt, w')
    ∧ store_of w' = base_store args w
    ∧ connections w' = connections w.
Proof.
  destruct args as [[|] d]; intros Hfiles.
  - rewrite main_reset_first, main_no_reset_unfold.
    change (pdf_files_of env (mkArgs false d))
      with (pdf_files_of env (mkArgs true d)).
    rewrite Hfiles. by eexists.
  - rewrite main_no_reset_unfold, Hfiles. by eexists.
Qed.

Lemma main_some_files args w :
  pdf_files_of env args ≠ [] →
  ∃ w0,
    main env args w = for_each (pdf_files_of env args) (ingest env) w0
    ∧ store_of w0 = base_store args w
    ∧ connections w0 = connections w.
Proof.
  destruct args as [[|] d]; intros Hfiles.
  - rewrite main_reset_first, main_no_reset_unfold.
    change (pdf_files_of env (mkArgs false d))
      with (pdf_files_of env (mkArgs true d)).
    destruct (pdf_files_of env (mkArgs true d)); [done|]. by eexists.
  - rewrite main_no_reset_unfold.
    destruct (pdf_files_of env (mkArgs false d)); [done|]. by eexists.
Qed.

(** A run of [main] that returns has found nothing new. *)
Lemma main_returned args w :
  (main env args w).1 = Returned tt →
  store_of (main env args w).2 = base_store args w
  ∧ all_known env (base_store args w) (pdf_files_of env args).
Proof.
  destruct (decide (pdf_files_of env args = [])) as [Hnone|Hsome].
  - destruct (main_no_files args w Hnone) as (w' & -> & Hs & _).
    rewrite Hnone. intros _. split; [done|constructor].
  - destruct (main_some_files args w Hsome) as (w0 & -> & Hs & _).
    destruct (for_each _ _ w0) as [r w'] eqn:E. cbn [fst snd].
    intros ->. apply for_each_ingest_returned in E as [Hknown Hs'].
    rewrite <- Hs. by split; [rewrite Hs'|].
Qed.

End MoreMain.

(** X13: [main] does not get past the first file that brings a new
    chunk.  When the files before it bring nothing new and it has a
    chunk whose id is not in the store, [main] raises there
    ([AttributeError] or [DuplicateIDError]), having built one client
    for each file up to and including it; the files after it are not
    looked at.  When its page identifiers stand together the error is
    the [AttributeError] of [db.persist()] and its chunks are in the
    store all the same. *)
Theorem main_stops_at_first_new_chunk (env : Env) (args : Args) (w : World)
    (pre post : list string) (p : string) (chunks : list Document)
    (i0 : pyval) :
  pdf_files_of env args = pre ++ p :: post →
  all_known env (base_store args w) pre →
  chunks_of env p = Returned chunks →
  i0 ∈ assigned_ids chunks → i0 ∉ dom (base_store args w) →
  ((main env args w).1 = Raised "AttributeError"
   ∨ (main env args w).1 = Raised "DuplicateIDError")
  ∧ connections (main env args w).2 = (connections w + length pre + 1)%nat
  ∧ (grouped (map page_id_of chunks) = true →
     (main env args w).1 = Raised "AttributeError"
     ∧ dom (store_of (main env args w).2)
       = dom (base_store args w) ∪ list_to_set (assigned_ids chunks)).
Proof.
  intros Hfiles Hknown Hp Hi0 Hnot.
  destruct (main_some_files env args w) as (w0 & -> & Hs & Hc).
  { rewrite Hfiles. by destruct pre. }
  rewrite Hfiles. rewrite <- Hs in Hknown, Hnot |- *.
  assert (Hnew : new_chunks_for (dom (store_of w0)) chunks ≠ []).
  { intros Hnone. apply Hnot.
    by apply (proj1 (new_chunks_none_iff chunks (dom (store_of w0))) Hnone). }
  destruct (for_each_ingest_stop_new env pre p post chunks w0 Hknown Hp Hnew)
    as (w' & -> & Hc' & Hs').
  cbn [fst snd]. split; [|split; [lia|]].
  - destruct (add_outcome_cases (new_chunks_for (dom (store_of w0)) chunks))
      as [[? _]|[_ ?]]; done.
  - intros Hg%grouped_assigned_NoDup.
    assert (Hnd : NoDup (omap read_id
                    (new_chunks_for (dom (store_of w0)) chunks)))
      by (by apply NoDup_omap_filter).
    rewrite Hs'. unfold add_outcome, add_store.
    destruct (new_chunks_for (dom (store_of w0)) chunks) as [|c new] eqn:E;
      [done|].
    rewrite !decide_True by done. split; [done|].
    rewrite <- E. apply dom_after_add_to_db.
Qed.

Lemma main_stops_at_first_new_chunk_witness :
  pdf_files_of env_two_files (mkArgs false "docs") = ["a.pdf"] ++ "b.pdf" :: []
  ∧ all_known env_two_files
      (base_store (mkArgs false "docs") sample_world_ingested) ["a.pdf"]
  ∧ chunks_of env_two_files "b.pdf" = Returned [pdf_chunk "b.pdf" 0 "u0"]
  ∧ (main env_two_files (mkArgs false "docs") sample_world_ingested).1
    = Raised "AttributeError"
  ∧ connections
      (main env_two_files (mkArgs false "docs") sample_world_ingested).2
    = 2%nat
  ∧ PyStr "b.pdf:0:0"
    ∈ dom (store_of
        (main env_two_files (mkArgs false "docs") sample_world_ingested).2).
Proof.
  assert (Hknown : all_known env_two_files
            (base_store (mkArgs false "docs") sample_world_ingested)
            ["a.pdf"]).
  { apply Forall_cons. split; [|constructor].
    exists sample_grouped. split; [reflexivity|]. intros i Hi.
    change (assigned_ids sample_grouped)
      with [PyStr "a.pdf:0:0"; PyStr "a.pdf:0:1"; PyStr "a.pdf:1:0"] in Hi.
    rewrite !elem_of_cons, elem_of_nil in Hi. apply elem_of_dom.
    destruct Hi as [->|[->|[->|[]]]]; vm_compute; eauto. }
  assert (Hnot : PyStr "b.pdf:0:0"
            ∉ dom (base_store (mkArgs false "docs") sample_world_ingested)).
  { intros Hin%elem_of_dom. vm_compute in Hin. by destruct Hin. }
  split; [reflexivity|]. split; [exact Hknown|]. split; [reflexivity|].
  destruct (main_stops_at_first_new_chunk env_two_files (mkArgs false "docs")
              sample_world_ingested ["a.pdf"] [] "b.pdf"
              [pdf_chunk "b.pdf" 0 "u0"] (PyStr "b.pdf:0:0")
              eq_refl Hknown eq_refl) as (_ & Hconn & Hstored); [|exact Hnot|].
  { apply list_elem_of_here. }
  destruct (Hstored eq_refl) as [Hout Hdom].
  split; [exact Hout|]. split; [exact Hconn|].
  rewrite Hdom. apply elem_of_union. right. apply elem_of_list_to_set.
  apply list_elem_of_here.
Defined.

(** X14: a run of [main] that returns has inserted nothing: the store
    is what it was at the start of the loop over the files (empty
    after a reset), the loader and the splitter have accepted every
    file, and the id of every chunk was in the store already. *)
Theorem main_returns_without_insert (env : Env) (args : Args) (w : World) :
  (main env args w).1 = Returned tt →
  store_of (main env args w).2 = base_store args w
  ∧ all_known env (base_store args w) (pdf_files_of env args).
Proof. apply main_returned. Qed.

Lemma main_returns_without_insert_witness :
  (main env_one_file (mkArgs false "docs") sample_world_ingested).1
  = Returned tt
  ∧ store_of (main env_one_file (mkArgs false "docs") sample_world_ingested).2
    = store_of sample_world_ingested.
Proof.
  assert (H : (main env_one_file (mkArgs false "docs")
                 sample_world_ingested).1 = Returned tt) by (by vm_compute).
  split; [exact H|].
  exact (proj1 (main_returns_without_insert env_one_file (mkArgs false "docs")
                  sample_world_ingested H)).
Defined.

(** X15: an error of the loader or the splitter is passed on.  When
    the files before the rejected one bring nothing new, [main] raises
    the error of the rejected file, having built one client for each
    file before it, and the store is what it was at the start of the
    loop. *)
Theorem main_loader_error (env : Env) (args : Args) (w : World)
    (pre post : list string) (p e : string) :
  pdf_files_of env args = pre ++ p :: post →
  all_known env (base_store args w) pre →
  chunks_of env p = Raised e →
  (main env args w).1 = Raised e
  ∧ connections (main env args w).2 = (connections w + length pre)%nat
  ∧ store_of (main env args w).2 = base_store args w.
Proof.
  intros Hfiles Hknown Hp.
  destruct (main_some_files env args w) as (w0 & -> & Hs & Hc).
  { rewrite Hfiles. by destruct pre. }
  rewrite Hfiles. rewrite <- Hs in Hknown |- *.
  destruct (for_each_ingest_stop_error env pre p post e w0 Hknown Hp)
    as (w' & -> & Hc' & Hs').
  cbn [fst snd]. split; [done|]. split; [lia|done].
Qed.

Lemma main_loader_error_witness :
  pdf_files_of env_second_fails (mkArgs false "docs")
  = ["a.pdf"] ++ "b.pdf" :: []
  ∧ all_known env_second_fails
      (base_store (mkArgs false "docs") sample_world_ingested) ["a.pdf"]
  ∧ chunks_of env_second_fails "b.pdf" = Raised "PdfReadError"
  ∧ (main env_second_fails (mkArgs false "docs") sample_world_ingested).1
    = Raised "PdfReadError"
  ∧ connections
      (main env_second_fails (mkArgs false "docs") sample_world_ingested).2
    = 1%nat.
Proof.
  assert (Hknown : all_known env_second_fails
            (base_store (mkArgs false "docs") sample_world_ingested)
            ["a.pdf"]).
  { apply Forall_cons. split; [|constructor].
    exists sample_grouped. split; [reflexivity|]. intros i Hi.
    change (assigned_ids sample_grouped)
      with [PyStr "a.pdf:0:0"; PyStr "a.pdf:0:1"; PyStr "a.pdf:1:0"] in Hi.
    rewrite !elem_of_cons, elem_of_nil in Hi. apply elem_of_dom.
    destruct Hi as [->|[->|[->|[]]]]; vm_compute; eauto. }
  split; [reflexivity|]. split; [exact Hknown|]. split; [reflexivity|].
  destruct (main_loader_error env_second_fails (mkArgs false "docs")
              sample_world_ingested ["a.pdf"] [] "b.pdf" "PdfReadError"
              eq_refl Hknown eq_refl) as (Hout & Hconn & _).
  split; [exact Hout|exact Hconn].
Defined.

(** X16: without the reset flag [main] never replaces or removes what
    the store holds: a document found under an id before the run is
    found under it after the run, however the run ends. *)
Theorem main_keeps_entries_without_reset (env : Env) (args : Args) (w : World)
    (i : pyval) (doc : Document) :
  reset args = false →
  store_of w !! i = Some doc →
  store_of (main env args w).2 !! i = Some doc.
Proof.
  intros Hreset Hi.
  assert (Hbase : base_store args w = store_of w)
    by (unfold base_store; by rewrite Hreset).
  destruct (decide (pdf_files_of env args = [])) as [Hnone|Hsome].
  - destruct (main_no_files env args w Hnone) as (w' & -> & Hs & _).
    cbn [snd]. by rewrite Hs, Hbase.
  - destruct (main_some_files env args w Hsome) as (w0 & -> & Hs & _).
    apply for_each_ingest_keeps. by rewrite Hs, Hbase.
Qed.

Lemma main_keeps_entries_without_reset_witness :
  reset (mkArgs false "docs") = false
  ∧ store_of sample_world_ingested !! PyStr "a.pdf:0:1"
    = Some (tag (pdf_chunk "a.pdf" 0 "t1") 1)
  ∧ store_of
      (main env_second_fails (mkArgs false "docs") sample_world_ingested).2
      !! PyStr "a.pdf:0:1"
    = Some (tag (pdf_chunk "a.pdf" 0 "t1") 1).
Proof.
  assert (H : store_of sample_world_ingested !! PyStr "a.pdf:0:1"
              = Some (tag (pdf_chunk "a.pdf" 0 "t1") 1)) by (by vm_compute).
  split; [reflexivity|]. split; [exact H|].
  exact (main_keeps_entries_without_reset env_second_fails
           (mkArgs false "docs") sample_world_ingested _ _ eq_refl H).
Defined.

(** X17: once a run of [main] has returned, a further run on the same
    directory without the reset flag, with the loader and the splitter
    answering as before, returns too and leaves the store as it is. *)
Theorem main_rerun_after_return (env : Env) (args : Args) (w : World) :
  (main env args w).1 = Returned tt →
  let w1 := (main env args w).2 in
  (main env (mkArgs false (dir args)) w1).1 = Returned tt
  ∧ store_of (main env (mkArgs false (dir args)) w1).2 = store_of w1.
Proof.
  intros [Hs Hknown]%main_returned w1. fold w1 in Hs. rewrite <- Hs in Hknown.
  assert (Hfiles : pdf_files_of env (mkArgs false (dir args))
                   = pdf_files_of env args) by (by destruct args).
  destruct (decide (pdf_files_of env args = [])) as [Hnone|Hsome].
  - destruct (main_no_files env (mkArgs false (dir args)) w1)
      as (w' & -> & Hs' & _); [by rewrite Hfiles|]. done.
  - destruct (main_some_files env (mkArgs false (dir args)) w1)
      as (w0 & -> & Hs0 & _); [by rewrite Hfiles|].
    rewrite Hfiles. change (base_store _ w1) with (store_of w1) in Hs0.
    rewrite <- Hs0 in Hknown |- *.
    destruct (for_each_ingest_all_known env _ w0 Hknown) as (w' & -> & Hs' & _).
    done.
Qed.

Lemma main_rerun_after_return_witness :
  (main env_one_file (mkArgs false "docs") sample_world_ingested).1
  = Returned tt
  ∧ (main env_one_file (mkArgs false "docs")
       (main env_one_file (mkArgs false "docs") sample_world_ingested).2).1
    = Returned tt.
Proof.
  assert (H : (main env_one_file (mkArgs false "docs")
                 sample_world_ingested).1 = Returned tt) by (by vm_compute).
  split; [exact H|].
  exact (proj1 (main_rerun_after_return env_one_file (mkArgs false "docs")
                  sample_world_ingested H)).
Defined.
